(** * Integrator junkbox: polynomial integration backends

    Shallow embedding of the integer ("NLFSR") and floating-point drafts that
    integrate f(x) = a x^4 + b x^3 + c x^2 + d x + e over [x_start, x_end].

    - [uint32_t] values are integers in [0, 2^32) carried as [Z]; every
      operation that can leave the range wraps with [wrap32].
    - The module-level coefficient variables are read-only inputs of every
      function; they are passed as a record.
    - [double] arithmetic is kept behind an interface ([DoubleArith]) with
      two instances: the exact rationals [Qc] and IEEE binary64. *)

From Equations Require Import Equations.
From Stdlib Require Import ZArith List Lia Bool QArith Qcanon Floats Uint63.
Import ListNotations.

Local Open Scope Z_scope.

(** ** Fixed-width unsigned integers *)

Definition width : Z := 32.
Definition modulus : Z := 2 ^ width.

Definition wrap32 (z : Z) : Z := z mod modulus.

Definition u32 (z : Z) : Prop := 0 <= z < modulus.

(** The five coefficients [a], [b], [c], [d], [e] (globals in every sketch). *)
Record coefficients (T : Type) : Type := Coefficients
  { coef_a : T; coef_b : T; coef_c : T; coef_d : T; coef_e : T }.
Arguments Coefficients {T} _ _ _ _ _.
Arguments coef_a {T} _.
Arguments coef_b {T} _.
Arguments coef_c {T} _.
Arguments coef_d {T} _.
Arguments coef_e {T} _.

Definition u32_coefficients (k : coefficients Z) : Prop :=
  u32 (coef_a k) /\ u32 (coef_b k) /\ u32 (coef_c k) /\
  u32 (coef_d k) /\ u32 (coef_e k).

(** ** The shift-and-accumulate loop

    Both drafts of [multiplyNLFSR] run the same loop and differ only in the
    accumulation ([result ^= current] or [result += current]):
<<
  while (multiplier > 0) {
    if (multiplier & 1) { result (op)= current; }
    current <<= 1;
    multiplier >>= 1;
  }
  return result;
>>
    The recursion is on the number of significant bits of [multiplier]. *)

Definition bit_length (m : Z) : nat :=
  match m with
  | Zpos p => Pos.size_nat p
  | _ => O
  end.

Lemma bit_length_shiftr (m : Z) :
  0 < m -> (bit_length (Z.shiftr m 1) < bit_length m)%nat.
Proof.
  destruct m as [|p|p]; try lia.
  intros _. destruct p; simpl; lia.
Qed.

Equations shift_accumulate (acc : Z -> Z -> Z) (result current multiplier : Z) : Z
  by wf (bit_length multiplier) lt :=
  shift_accumulate acc result current multiplier with Z_lt_dec 0 multiplier := {
    | left _ =>
        shift_accumulate acc
          (if negb (Z.land multiplier 1 =? 0) then acc result current else result)
          (wrap32 (Z.shiftl current 1))
          (Z.shiftr multiplier 1)
    | right _ => result }.
Next Obligation. apply bit_length_shiftr; assumption. Qed.


(** The accumulation of the first drafts: [result ^= current]. *)
Definition xor_accumulate (result current : Z) : Z := Z.lxor result current.

(** The accumulation of the corrected draft: [result += current]. *)
Definition add_accumulate (result current : Z) : Z := wrap32 (result + current).

(** The same loop with a counter of executed iterations. *)
Equations shift_accumulate_counted (acc : Z -> Z -> Z)
  (result current multiplier : Z) : Z * nat
  by wf (bit_length multiplier) lt :=
  shift_accumulate_counted acc result current multiplier with Z_lt_dec 0 multiplier := {
    | left _ =>
        let (r, n) :=
          shift_accumulate_counted acc
            (if negb (Z.land multiplier 1 =? 0) then acc result current else result)
            (wrap32 (Z.shiftl current 1))
            (Z.shiftr multiplier 1) in
        (r, S n)
    | right _ => (result, O) }.
Next Obligation. apply bit_length_shiftr; assumption. Qed.

(** One execution of the loop body on the triple of loop variables. *)
Record loop_state : Type := LoopState
  { st_result : Z; st_current : Z; st_multiplier : Z }.

Definition loop_guard (s : loop_state) : bool := 0 <? st_multiplier s.

Definition loop_body (acc : Z -> Z -> Z) (s : loop_state) : loop_state :=
  {| st_result :=
       if negb (Z.land (st_multiplier s) 1 =? 0)
       then acc (st_result s) (st_current s) else st_result s;
     st_current := wrap32 (Z.shiftl (st_current s) 1);
     st_multiplier := Z.shiftr (st_multiplier s) 1 |}.

Definition loop_entry (value multiplier : Z) : loop_state :=
  {| st_result := 0; st_current := value; st_multiplier := multiplier |}.

(** ** Evaluations that count loop iterations *)

Definition counted (A : Type) : Type := (A * nat)%type.

Definition ret {A : Type} (x : A) : counted A := (x, O).

Definition bind {A B : Type} (m : counted A) (f : A -> counted B) : counted B :=
  let (x, n) := m in let (y, n') := f x in (y, (n + n')%nat).

Definition lift2 {A : Type} (op : A -> A -> A) (m1 m2 : counted A) : counted A :=
  bind m1 (fun x => bind m2 (fun y => ret (op x y))).

(** ** First integer draft: XOR everywhere (trapezoid.ino, second listing) *)

Module XorDraft.

Definition multiplyNLFSR (value multiplier : Z) : Z :=
  shift_accumulate xor_accumulate 0 value multiplier.

Definition polynomialNLFSR (k : coefficients Z) (x : Z) : Z :=
  let term1 := multiplyNLFSR (coef_a k)
                 (multiplyNLFSR x (multiplyNLFSR x (multiplyNLFSR x x))) in
  let term2 := multiplyNLFSR (coef_b k)
                 (multiplyNLFSR x (multiplyNLFSR x (multiplyNLFSR x 1))) in
  let term3 := multiplyNLFSR (coef_c k) (multiplyNLFSR x (multiplyNLFSR x 1)) in
  let term4 := multiplyNLFSR (coef_d k) x in
  let term5 := coef_e k in
  Z.lxor (Z.lxor (Z.lxor (Z.lxor term1 term2) term3) term4) term5.

Definition antiderivativeNLFSR (k : coefficients Z) (x : Z) : Z :=
  let term1 := multiplyNLFSR (coef_a k / 5)
                 (multiplyNLFSR x (multiplyNLFSR x (multiplyNLFSR x
                   (multiplyNLFSR x (multiplyNLFSR x 1))))) in
  let term2 := multiplyNLFSR (coef_b k / 4)
                 (multiplyNLFSR x (multiplyNLFSR x (multiplyNLFSR x
                   (multiplyNLFSR x 1)))) in
  let term3 := multiplyNLFSR (coef_c k / 3)
                 (multiplyNLFSR x (multiplyNLFSR x (multiplyNLFSR x 1))) in
  let term4 := multiplyNLFSR (coef_d k / 2)
                 (multiplyNLFSR x (multiplyNLFSR x 1)) in
  let term5 := multiplyNLFSR (coef_e k) x in
  Z.lxor (Z.lxor (Z.lxor (Z.lxor term1 term2) term3) term4) term5.

Definition symbolicIntegrationNLFSR (k : coefficients Z) (x_start x_end : Z) : Z :=
  let F_x_start := antiderivativeNLFSR k x_start in
  let F_x_end := antiderivativeNLFSR k x_end in
  Z.lxor F_x_end F_x_start.

(** The shape of every rational term of [antiderivativeNLFSR]: the
    coefficient is divided first, then multiplied by the power of [x]. *)
Definition scaled_term (coefficient divisor power : Z) : Z :=
  multiplyNLFSR (coefficient / divisor) power.

(** Iteration-counting twins. *)
Definition multiplyNLFSR_counted (value : Z) (multiplier : counted Z) : counted Z :=
  bind multiplier (shift_accumulate_counted xor_accumulate 0 value).

Definition antiderivativeNLFSR_counted (k : coefficients Z) (x : Z) : counted Z :=
  let mul := multiplyNLFSR_counted in
  let term1 := mul (coef_a k / 5) (mul x (mul x (mul x (mul x (mul x (ret 1)))))) in
  let term2 := mul (coef_b k / 4) (mul x (mul x (mul x (mul x (ret 1))))) in
  let term3 := mul (coef_c k / 3) (mul x (mul x (mul x (ret 1)))) in
  let term4 := mul (coef_d k / 2) (mul x (mul x (ret 1))) in
  let term5 := mul (coef_e k) (ret x) in
  lift2 Z.lxor (lift2 Z.lxor (lift2 Z.lxor (lift2 Z.lxor term1 term2) term3) term4) term5.

Definition symbolicIntegrationNLFSR_counted
  (k : coefficients Z) (x_start x_end : Z) : counted Z :=
  bind (antiderivativeNLFSR_counted k x_start) (fun F_x_start =>
  bind (antiderivativeNLFSR_counted k x_end) (fun F_x_end =>
  ret (Z.lxor F_x_end F_x_start))).

End XorDraft.

(** ** Corrected integer draft: arithmetic accumulation (second listing of the
       review notes; its multiplier is also the one of crooked3.md) *)

Module AddDraft.

Definition multiplyNLFSR (value multiplier : Z) : Z :=
  shift_accumulate add_accumulate 0 value multiplier.

Definition evaluatePolynomial (k : coefficients Z) (x : Z) : Z :=
  let term1 := multiplyNLFSR (coef_a k)
                 (multiplyNLFSR x (multiplyNLFSR x (multiplyNLFSR x x))) in
  let term2 := multiplyNLFSR (coef_b k)
                 (multiplyNLFSR x (multiplyNLFSR x (multiplyNLFSR x 1))) in
  let term3 := multiplyNLFSR (coef_c k) (multiplyNLFSR x (multiplyNLFSR x 1)) in
  let term4 := multiplyNLFSR (coef_d k) x in
  let term5 := coef_e k in
  wrap32 (wrap32 (wrap32 (wrap32 (term1 + term2) + term3) + term4) + term5).

Definition evaluateAntiderivative (k : coefficients Z) (x : Z) : Z :=
  let term1 := multiplyNLFSR (coef_a k)
                 (multiplyNLFSR x (multiplyNLFSR x (multiplyNLFSR x
                   (multiplyNLFSR x (multiplyNLFSR x 1))))) / 5 in
  let term2 := multiplyNLFSR (coef_b k)
                 (multiplyNLFSR x (multiplyNLFSR x (multiplyNLFSR x
                   (multiplyNLFSR x 1)))) / 4 in
  let term3 := multiplyNLFSR (coef_c k)
                 (multiplyNLFSR x (multiplyNLFSR x (multiplyNLFSR x 1))) / 3 in
  let term4 := multiplyNLFSR (coef_d k)
                 (multiplyNLFSR x (multiplyNLFSR x 1)) / 2 in
  let term5 := multiplyNLFSR (coef_e k) x in
  wrap32 (wrap32 (wrap32 (wrap32 (term1 + term2) + term3) + term4) + term5).

Definition integratePolynomial (k : coefficients Z) (x_start x_end : Z) : Z :=
  let F_x_start := evaluateAntiderivative k x_start in
  let F_x_end := evaluateAntiderivative k x_end in
  wrap32 (F_x_end - F_x_start).

(** The shape of every rational term of [evaluateAntiderivative]: the
    coefficient is multiplied by the power of [x], then divided. *)
Definition scaled_term (coefficient divisor power : Z) : Z :=
  multiplyNLFSR coefficient power / divisor.

(** Iteration-counting twins. *)
Definition multiplyNLFSR_counted (value : Z) (multiplier : counted Z) : counted Z :=
  bind multiplier (shift_accumulate_counted add_accumulate 0 value).

Definition divide_counted (m : counted Z) (divisor : Z) : counted Z :=
  bind m (fun v => ret (v / divisor)).

Definition add_counted : counted Z -> counted Z -> counted Z :=
  lift2 (fun s t => wrap32 (s + t)).

Definition evaluatePolynomial_counted (k : coefficients Z) (x : Z) : counted Z :=
  let mul := multiplyNLFSR_counted in
  let term1 := mul (coef_a k) (mul x (mul x (mul x (ret x)))) in
  let term2 := mul (coef_b k) (mul x (mul x (mul x (ret 1)))) in
  let term3 := mul (coef_c k) (mul x (mul x (ret 1))) in
  let term4 := mul (coef_d k) (ret x) in
  let term5 := ret (coef_e k) in
  add_counted (add_counted (add_counted (add_counted term1 term2) term3) term4) term5.

Definition evaluateAntiderivative_counted (k : coefficients Z) (x : Z) : counted Z :=
  let mul := multiplyNLFSR_counted in
  let term1 :=
    divide_counted (mul (coef_a k) (mul x (mul x (mul x (mul x (mul x (ret 1))))))) 5 in
  let term2 := divide_counted (mul (coef_b k) (mul x (mul x (mul x (mul x (ret 1)))))) 4 in
  let term3 := divide_counted (mul (coef_c k) (mul x (mul x (mul x (ret 1))))) 3 in
  let term4 := divide_counted (mul (coef_d k) (mul x (mul x (ret 1)))) 2 in
  let term5 := mul (coef_e k) (ret x) in
  add_counted (add_counted (add_counted (add_counted term1 term2) term3) term4) term5.

Definition integratePolynomial_counted
  (k : coefficients Z) (x_start x_end : Z) : counted Z :=
  bind (evaluateAntiderivative_counted k x_start) (fun F_x_start =>
  bind (evaluateAntiderivative_counted k x_end) (fun F_x_end =>
  ret (wrap32 (F_x_end - F_x_start)))).

End AddDraft.

(** The fixture of every sketch: a=1, b=2, c=3, d=4, e=5. *)
Definition fixture : coefficients Z := Coefficients 1 2 3 4 5.

(** ** Floating-point drafts

    The [double] operations the sketches use.  [dpow x n] stands for the
    library call [pow(x, n)] with a literal exponent, [dconst z] for an
    integer-valued literal ([5.0], [2.0], [0.0]) or an [int] converted to
    [double]. *)

Class DoubleArith (D : Type) : Type :=
  { dadd : D -> D -> D;
    dsub : D -> D -> D;
    dmul : D -> D -> D;
    ddiv : D -> D -> D;
    dpow : D -> nat -> D;
    dconst : Z -> D }.

(** symbolic_derivative.ino *)
Module Symbolic.
Section WithDouble.
Context {D : Type} `{DoubleArith D}.

Definition polynomialAntiderivative (k : coefficients D) (x : D) : D :=
let term1 := dmul (ddiv (coef_a k) (dconst 5)) (dpow x 5) in
let term2 := dmul (ddiv (coef_b k) (dconst 4)) (dpow x 4) in
let term3 := dmul (ddiv (coef_c k) (dconst 3)) (dpow x 3) in
let term4 := dmul (ddiv (coef_d k) (dconst 2)) (dpow x 2) in
let term5 := dmul (coef_e k) x in
dadd (dadd (dadd (dadd term1 term2) term3) term4) term5.

Definition symbolicIntegration (k : coefficients D) (x_start x_end : D) : D :=
let F_x_start := polynomialAntiderivative k x_start in
let F_x_end := polynomialAntiderivative k x_end in
dsub F_x_end F_x_start.

End WithDouble.
End Symbolic.

(** The "NLFSR and ring properties" sketch over [double]. *)
Module RingDraft.
Section WithDouble.
Context {D : Type} `{DoubleArith D}.

Definition polynomial (k : coefficients D) (x : D) : D :=
  dadd (dadd (dadd (dadd (dmul (coef_a k) (dpow x 4)) (dmul (coef_b k) (dpow x 3)))
                   (dmul (coef_c k) (dpow x 2)))
             (dmul (coef_d k) x))
       (coef_e k).

Definition antiderivativeNLFSR (k : coefficients D) (x : D) : D :=
  let term1 := dmul (ddiv (coef_a k) (dconst 5)) (dpow x 5) in
  let term2 := dmul (ddiv (coef_b k) (dconst 4)) (dpow x 4) in
  let term3 := dmul (ddiv (coef_c k) (dconst 3)) (dpow x 3) in
  let term4 := dmul (ddiv (coef_d k) (dconst 2)) (dpow x 2) in
  let term5 := dmul (coef_e k) x in
  dadd (dadd (dadd (dadd term1 term2) term3) term4) term5.

Definition symbolicIntegrationNLFSR (k : coefficients D) (x_start x_end : D) : D :=
  let F_x_start := antiderivativeNLFSR k x_start in
  let F_x_end := antiderivativeNLFSR k x_end in
  dsub F_x_end F_x_start.

End WithDouble.
End RingDraft.

(** trapezoid.ino, first listing. *)
Module Trapezoid.
Section WithDouble.
Context {D : Type} `{DoubleArith D}.

Definition polynomial (k : coefficients D) (x : D) : D :=
  dadd (dadd (dadd (dadd (dmul (coef_a k) (dpow x 4)) (dmul (coef_b k) (dpow x 3)))
                   (dmul (coef_c k) (dpow x 2)))
             (dmul (coef_d k) x))
       (coef_e k).

(** [for (int i = 1; i < num_intervals; i++) { integral += polynomial(x_start + i * h); }] *)
Equations sum_middle_terms (k : coefficients D) (x_start h : D) (num_intervals : Z)
  (i : Z) (integral : D) : D
  by wf (Z.to_nat (num_intervals - i)) lt :=
  sum_middle_terms k x_start h num_intervals i integral with Z_lt_dec i num_intervals := {
    | left _ =>
        let x := dadd x_start (dmul (dconst i) h) in
        sum_middle_terms k x_start h num_intervals (i + 1)
          (dadd integral (polynomial k x))
    | right _ => integral }.
Next Obligation. lia. Qed.

Definition trapezoidalIntegration
  (k : coefficients D) (x_start x_end : D) (num_intervals : Z) : D :=
  let h := ddiv (dsub x_end x_start) (dconst num_intervals) in
  let integral := dconst 0 in
  let integral := dadd integral (ddiv (polynomial k x_start) (dconst 2)) in
  let integral := dadd integral (ddiv (polynomial k x_end) (dconst 2)) in
  let integral := sum_middle_terms k x_start h num_intervals 1 integral in
  dmul integral h.

End WithDouble.
End Trapezoid.

(** Exact rational arithmetic as an instance of the interface.  It is an
    idealisation, not the C [double]: no operation rounds, there is no
    infinity and no NaN, and [x / 0] is 0.  What is stated at this instance is
    stated about exact arithmetic only. *)
#[export] Instance exact_arith : DoubleArith Qc :=
  { dadd := Qcplus;
    dsub := Qcminus;
    dmul := Qcmult;
    ddiv := Qcdiv;
    dpow := Qcpower;
    dconst := fun z => Q2Qc (inject_Z z) }.

Definition exact_fixture : coefficients Qc :=
  Coefficients (dconst 1) (dconst 2) (dconst 3) (dconst 4) (dconst 5).

Definition num_intervals_default : Z := 1000.

(** IEEE binary64 as a second instance.  [pow] belongs to the C library and
    is not part of the sketches; here [dpow x n] multiplies [x] into 1.0 [n]
    times. *)
Fixpoint pow_by_multiplication (x : float) (n : nat) : float :=
  match n with
  | O => 1%float
  | S n' => PrimFloat.mul x (pow_by_multiplication x n')
  end.

Definition binary64_of_Z (z : Z) : float :=
  if z <? 0 then PrimFloat.opp (PrimFloat.of_uint63 (Uint63.of_Z (- z)))
  else PrimFloat.of_uint63 (Uint63.of_Z z).

#[export] Instance binary64_arith : DoubleArith float :=
  { dadd := PrimFloat.add;
    dsub := PrimFloat.sub;
    dmul := PrimFloat.mul;
    ddiv := PrimFloat.div;
    dpow := pow_by_multiplication;
    dconst := binary64_of_Z }.

Definition binary64_fixture : coefficients float :=
  Coefficients (dconst 1) (dconst 2) (dconst 3) (dconst 4) (dconst 5).



(** ** The trapezoidal rule as the specification words it

    [h * (f(x_start)/2 + f(x_end)/2 + sum of f(x_start + i*h) for i in 1..n-1)]
    with [h = (x_end - x_start) / n] and [f] the degree-4 polynomial. *)

Definition quartic (k : coefficients Qc) (x : Qc) : Qc :=
  (coef_a k * x ^ 4 + coef_b k * x ^ 3 + coef_c k * x ^ 2 + coef_d k * x + coef_e k)%Qc.

Fixpoint sum_from (f : Z -> Qc) (first : Z) (count : nat) : Qc :=
  match count with
  | O => 0%Qc
  | S n => (f first + sum_from f (first + 1) n)%Qc
  end.

Definition trapezoidal_rule
  (k : coefficients Qc) (x_start x_end : Qc) (n : Z) : Qc :=
  let h := ((x_end - x_start) / dconst n)%Qc in
  (h * (quartic k x_start / dconst 2 + quartic k x_end / dconst 2
        + sum_from (fun i => quartic k (x_start + dconst i * h)) 1 (Z.to_nat (n - 1))))%Qc.

(** The rational number a binary64 value stands for ([None] for an infinity
    or a NaN): [m * 2^e] for the mantissa [m] and exponent [e]. *)
Definition dyadic (m e : Z) : Q :=
  if 0 <=? e then inject_Z (m * 2 ^ e) else m # Pos.pow 2 (Z.to_pos (- e)).

Definition spec_float_value (f : spec_float) : option Q :=
  match f with
  | S754_zero _ => Some 0%Q
  | S754_finite s m e => Some (dyadic (if s then Zneg m else Zpos m) e)
  | S754_infinity _ => None
  | S754_nan => None
  end.

Definition binary64_value (v : float) : option Q := spec_float_value (Prim2SF v).

(** The trapezoidal sum with the operations of the arithmetic at hand, applied
    in the order of the sketch: start from 0.0, add the two halved end
    samples, add the middle samples for i = 1, 2, ..., n-1 one after the
    other, and multiply the total by [h]. *)
Definition trapezoidal_rule_in_order {D : Type} {arith : DoubleArith D}
  (k : coefficients D) (x_start x_end : D) (n : Z) : D :=
  let h := ddiv (dsub x_end x_start) (dconst n) in
  let ends :=
    dadd (dadd (dconst 0) (ddiv (Trapezoid.polynomial k x_start) (dconst 2)))
         (ddiv (Trapezoid.polynomial k x_end) (dconst 2)) in
  dmul
    (fold_left
       (fun total i =>
          dadd total (Trapezoid.polynomial k (dadd x_start (dmul (dconst i) h))))
       (map (fun j => 1 + Z.of_nat j) (seq 0 (Z.to_nat (n - 1))))
       ends)
    h.

(** ** What a caller can observe

    The conditions of the error taxonomy, and the two things a call could hand
    back.  Every function of the sketches has return type [uint32_t] and no
    other channel (no flag, no out-parameter, no exception), so a call always
    hands back a value. *)

Inductive condition : Type := Overflow | PrecisionLoss | Underflow | InvalidMode.

Inductive outcome : Type :=
| Returned (value : Z)
| Signalled (c : condition).

Definition condition_eqb (c1 c2 : condition) : bool :=
  match c1, c2 with
  | Overflow, Overflow | PrecisionLoss, PrecisionLoss
  | Underflow, Underflow | InvalidMode, InvalidMode => true
  | _, _ => false
  end.

Definition signals (c : condition) (o : outcome) : bool :=
  match o with
  | Returned _ => false
  | Signalled c' => condition_eqb c c'
  end.

Definition integratePolynomial_outcome
  (k : coefficients Z) (x_start x_end : Z) : outcome :=
  Returned (AddDraft.integratePolynomial k x_start x_end).

Definition evaluateAntiderivative_outcome (k : coefficients Z) (x : Z) : outcome :=
  Returned (AddDraft.evaluateAntiderivative k x).

Definition antiderivativeNLFSR_outcome (k : coefficients Z) (x : Z) : outcome :=
  Returned (XorDraft.antiderivativeNLFSR k x).

(** ** Exact values the integer evaluations are compared with *)

Definition polynomial_value (k : coefficients Z) (x : Z) : Z :=
  coef_a k * x ^ 4 + coef_b k * x ^ 3 + coef_c k * x ^ 2 + coef_d k * x + coef_e k.

(** No power of [x], no term and no partial sum leaves the 32-bit range. *)
Definition polynomial_fits (k : coefficients Z) (x : Z) : Prop :=
  x ^ 2 < modulus /\ x ^ 3 < modulus /\ x ^ 4 < modulus /\
  coef_a k * x ^ 4 < modulus /\ coef_b k * x ^ 3 < modulus /\
  coef_c k * x ^ 2 < modulus /\ coef_d k * x < modulus /\
  coef_a k * x ^ 4 + coef_b k * x ^ 3 < modulus /\
  coef_a k * x ^ 4 + coef_b k * x ^ 3 + coef_c k * x ^ 2 < modulus /\
  coef_a k * x ^ 4 + coef_b k * x ^ 3 + coef_c k * x ^ 2 + coef_d k * x < modulus /\
  polynomial_value k x < modulus.

(** ** The feedback shift register [NLFSR]

    [taps] is the array and [num_taps] the count the caller passes.  The
    function is undefined in C when the loop reads past the array or shifts
    the 32-bit state by 32 places or more; the model answers [None] there.
<<
  for (int i = 0; i < num_taps; i++) { feedback ^= (state >> taps[i]) & 1; }
  state = (state >> 1) | (feedback << 31);
>> *)

Fixpoint tap_loop (state : Z) (taps : list Z) (remaining i : nat) (feedback : Z)
  : option Z :=
  match remaining with
  | O => Some feedback
  | S remaining' =>
      match nth_error taps i with
      | None => None
      | Some tap =>
          if (0 <=? tap) && (tap <? width)
          then tap_loop state taps remaining' (S i)
                 (Z.lxor feedback (Z.land (Z.shiftr state tap) 1))
          else None
      end
  end.

Definition NLFSR (state : Z) (taps : list Z) (num_taps : Z) : option Z :=
  match tap_loop state taps (Z.to_nat num_taps) O 0 with
  | None => None
  | Some feedback =>
      Some (Z.lor (Z.shiftr state 1) (wrap32 (Z.shiftl feedback 31)))
  end.

(** The taps of the corrected draft: [const uint8_t taps[] = {31, 21, 1, 0}]. *)
Definition taps : list Z := [31; 21; 1; 0].

(** ** The "emulation" draft: multiplication by a repeated feedback shift

    Third listing of the review notes; [power] counts the iterations of
<<
  for (uint32_t i = 0; i < power; i++) { result ^= feedback; feedback <<= 1; }
>> *)

Module FeedbackDraft.

Equations feedback_loop (power i result feedback : Z) : Z
  by wf (Z.to_nat (power - i)) lt :=
  feedback_loop power i result feedback with Z_lt_dec i power := {
    | left _ =>
        feedback_loop power (i + 1)
          (Z.lxor result feedback) (wrap32 (Z.shiftl feedback 1))
    | right _ => result }.
Next Obligation. lia. Qed.

Definition multiplyNLFSR (value power : Z) : Z := feedback_loop power 0 0 value.

Definition polynomialNLFSR (k : coefficients Z) (x : Z) : Z :=
  let term1 := wrap32 (multiplyNLFSR (coef_a k) 4 * x) in
  let term2 := wrap32 (multiplyNLFSR (coef_b k) 3 * x) in
  let term3 := wrap32 (multiplyNLFSR (coef_c k) 2 * x) in
  let term4 := wrap32 (multiplyNLFSR (coef_d k) 1 * x) in
  let term5 := coef_e k in
  Z.lxor (Z.lxor (Z.lxor (Z.lxor term1 term2) term3) term4) term5.

Definition antiderivativeNLFSR (k : coefficients Z) (x : Z) : Z :=
  let term1 := wrap32 (multiplyNLFSR (coef_a k / 5) 5 * x) in
  let term2 := wrap32 (multiplyNLFSR (coef_b k / 4) 4 * x) in
  let term3 := wrap32 (multiplyNLFSR (coef_c k / 3) 3 * x) in
  let term4 := wrap32 (multiplyNLFSR (coef_d k / 2) 2 * x) in
  let term5 := wrap32 (multiplyNLFSR (coef_e k) 1 * x) in
  Z.lxor (Z.lxor (Z.lxor (Z.lxor term1 term2) term3) term4) term5.

Definition symbolicIntegrationNLFSR (k : coefficients Z) (x_start x_end : Z) : Z :=
  let F_x_start := antiderivativeNLFSR k x_start in
  let F_x_end := antiderivativeNLFSR k x_end in
  Z.lxor F_x_end F_x_start.

End FeedbackDraft.

(** One execution of the body of [FeedbackDraft.feedback_loop] on the pair
    ([result], [feedback]). *)
Definition feedback_body (s : Z * Z) : Z * Z :=
  (Z.lxor (fst s) (snd s), wrap32 (Z.shiftl (snd s) 1)).

(** ** Integer inputs read as exact rationals *)

Definition exact_of_Z (z : Z) : Qc := Q2Qc (inject_Z z).

Definition exact_coefficients (k : coefficients Z) : coefficients Qc :=
  Coefficients (exact_of_Z (coef_a k)) (exact_of_Z (coef_b k)) (exact_of_Z (coef_c k))
    (exact_of_Z (coef_d k)) (exact_of_Z (coef_e k)).

(** The value of the integer antiderivative when nothing overflows: every
    rational term is a floor quotient. *)
Definition antiderivative_value (k : coefficients Z) (x : Z) : Z :=
  coef_a k * x ^ 5 / 5 + coef_b k * x ^ 4 / 4 + coef_c k * x ^ 3 / 3
  + coef_d k * x ^ 2 / 2 + coef_e k * x.

(** No product of a coefficient with a power of [x] and no sum of terms
    leaves the 32-bit range. *)
Definition antiderivative_fits (k : coefficients Z) (x : Z) : Prop :=
  coef_a k * x ^ 5 < modulus /\ coef_b k * x ^ 4 < modulus /\
  coef_c k * x ^ 3 < modulus /\ coef_d k * x ^ 2 < modulus /\
  antiderivative_value k x < modulus.

(** The XOR of the tapped bits of [state], in the order of the loop. *)
Definition tap_parity (state : Z) (tapped : list Z) : Z :=
  fold_left (fun feedback tap => Z.lxor feedback (Z.land (Z.shiftr state tap) 1))
    tapped 0.

(** The call is defined: [num_taps] entries can be read and every one of
    them is a bit position of the 32-bit state. *)
Definition valid_taps (tapped : list Z) (num_taps : Z) : Prop :=
  0 <= num_taps <= Z.of_nat (length tapped) /\
  Forall (fun tap => 0 <= tap < width) tapped.

(** ** Basic facts about the 32-bit range *)

Lemma modulus_eq : modulus = 4294967296.
Proof. reflexivity. Qed.

Lemma wrap32_u32 (z : Z) : u32 (wrap32 z).
Proof. unfold u32, wrap32. apply Z.mod_pos_bound. reflexivity. Qed.

Lemma wrap32_small (z : Z) : u32 z -> wrap32 z = z.
Proof. unfold u32, wrap32. intros Hz. apply Z.mod_small. exact Hz. Qed.

Lemma wrap32_add_l (x y : Z) : wrap32 (wrap32 x + y) = wrap32 (x + y).
Proof. unfold wrap32. apply Z.add_mod_idemp_l. discriminate. Qed.

Lemma wrap32_add_r (x y : Z) : wrap32 (x + wrap32 y) = wrap32 (x + y).
Proof. unfold wrap32. apply Z.add_mod_idemp_r. discriminate. Qed.

Lemma wrap32_mul_l (x y : Z) : wrap32 (wrap32 x * y) = wrap32 (x * y).
Proof. unfold wrap32. apply Z.mul_mod_idemp_l. discriminate. Qed.

Lemma wrap32_mul_r (x y : Z) : wrap32 (x * wrap32 y) = wrap32 (x * y).
Proof. unfold wrap32. apply Z.mul_mod_idemp_r. discriminate. Qed.

Lemma u32_lxor (x y : Z) : u32 x -> u32 y -> u32 (Z.lxor x y).
Proof.
  unfold u32. rewrite modulus_eq. intros [Hx0 Hx] [Hy0 Hy].
  assert (H0 : 0 <= Z.lxor x y) by (apply Z.lxor_nonneg; tauto).
  split; [exact H0|].
  destruct (Z.eq_dec (Z.lxor x y) 0) as [E|E]; [rewrite E; reflexivity|].
  change 4294967296 with (2 ^ 32).
  apply Z.log2_lt_pow2; [lia|].
  pose proof (Z.log2_lxor x y Hx0 Hy0) as Hl.
  assert (Hlx : Z.log2 x < 32).
  { destruct (Z.eq_dec x 0) as [->|Nx]; [reflexivity|].
    apply Z.log2_lt_pow2; [lia|]. exact Hx. }
  assert (Hly : Z.log2 y < 32).
  { destruct (Z.eq_dec y 0) as [->|Ny]; [reflexivity|].
    apply Z.log2_lt_pow2; [lia|]. exact Hy. }
  lia.
Qed.

Lemma size_nat_bound (p : positive) :
  forall n : nat, Zpos p < 2 ^ Z.of_nat n -> (Pos.size_nat p <= n)%nat.
Proof.
  induction p as [p IH|p IH|]; intros n Hn; simpl.
  - destruct n as [|n]; [simpl in Hn; lia|].
    apply le_n_S, IH. rewrite Nat2Z.inj_succ, Z.pow_succ_r in Hn by lia. lia.
  - destruct n as [|n]; [simpl in Hn; lia|].
    apply le_n_S, IH. rewrite Nat2Z.inj_succ, Z.pow_succ_r in Hn by lia. lia.
  - destruct n as [|n]; [simpl in Hn; lia|]. lia.
Qed.

Lemma bit_length_u32 (m : Z) : u32 m -> (bit_length m <= 32)%nat.
Proof.
  unfold u32, modulus, width. intros [H0 H].
  destruct m as [|p|p]; simpl; try lia.
  apply size_nat_bound. exact H.
Qed.

Lemma shift_accumulate_step (acc : Z -> Z -> Z) (result current multiplier : Z) :
  0 < multiplier ->
  shift_accumulate acc result current multiplier =
  shift_accumulate acc
    (if negb (Z.land multiplier 1 =? 0) then acc result current else result)
    (wrap32 (Z.shiftl current 1)) (Z.shiftr multiplier 1).
Proof.
  intros Hm. rewrite shift_accumulate_equation_1.
  destruct (Z_lt_dec 0 multiplier) as [Hlt|Hge]; [reflexivity|contradiction].
Qed.

Lemma shift_accumulate_exit (acc : Z -> Z -> Z) (result current multiplier : Z) :
  multiplier <= 0 -> shift_accumulate acc result current multiplier = result.
Proof.
  intros Hm. rewrite shift_accumulate_equation_1.
  destruct (Z_lt_dec 0 multiplier) as [Hlt|Hge]; [lia|reflexivity].
Qed.

Lemma shift_accumulate_counted_step (acc : Z -> Z -> Z) (result current multiplier : Z) :
  0 < multiplier ->
  shift_accumulate_counted acc result current multiplier =
  let (r, n) :=
    shift_accumulate_counted acc
      (if negb (Z.land multiplier 1 =? 0) then acc result current else result)
      (wrap32 (Z.shiftl current 1)) (Z.shiftr multiplier 1) in
  (r, S n).
Proof.
  intros Hm. rewrite shift_accumulate_counted_equation_1.
  destruct (Z_lt_dec 0 multiplier) as [Hlt|Hge]; [reflexivity|contradiction].
Qed.

Lemma shift_accumulate_counted_exit (acc : Z -> Z -> Z) (result current multiplier : Z) :
  multiplier <= 0 -> shift_accumulate_counted acc result current multiplier = (result, O).
Proof.
  intros Hm. rewrite shift_accumulate_counted_equation_1.
  destruct (Z_lt_dec 0 multiplier) as [Hlt|Hge]; [lia|reflexivity].
Qed.

(** Induction along the loop: the multiplier is halved until it is zero. *)
Lemma halving_ind (P : Z -> Prop) :
  (forall m, m <= 0 -> P m) ->
  (forall m, 0 < m -> P (Z.shiftr m 1) -> P m) ->
  forall m, P m.
Proof.
  intros Hexit Hstep m.
  remember (bit_length m) as n eqn:En.
  revert m En. induction n as [n IH] using lt_wf_ind. intros m En.
  destruct (Z_lt_dec 0 m) as [Hpos|Hneg].
  - apply Hstep; [exact Hpos|].
    apply (IH (bit_length (Z.shiftr m 1))); [|reflexivity].
    subst n. apply bit_length_shiftr. exact Hpos.
  - apply Hexit. lia.
Qed.

Lemma bit_length_step (m : Z) :
  0 < m -> bit_length m = S (bit_length (Z.shiftr m 1)).
Proof.
  destruct m as [|p|p]; try lia. intros _. destruct p; reflexivity.
Qed.

Lemma low_bit_cases (m : Z) :
  0 < m ->
  (Z.land m 1 =? 0) = true /\ m = 2 * Z.shiftr m 1 \/
  (Z.land m 1 =? 0) = false /\ m = 2 * Z.shiftr m 1 + 1.
Proof.
  intros Hm.
  change 1 with (Z.ones 1) at 1 3. rewrite Z.land_ones by lia.
  rewrite Z.shiftr_div_pow2 by lia. change (2 ^ 1) with 2.
  pose proof (Z.div_mod m 2 ltac:(lia)) as Hdm.
  pose proof (Z.mod_pos_bound m 2 ltac:(lia)) as Hb.
  destruct (Z.eqb_spec (m mod 2) 0) as [E|E]; [left|right]; split; trivial; lia.
Qed.

(** The arithmetic loop computes [result + current * multiplier] modulo 2^32. *)
Lemma shift_accumulate_add (multiplier : Z) :
  forall result current,
    u32 result -> 0 <= multiplier ->
    shift_accumulate add_accumulate result current multiplier =
    wrap32 (result + current * multiplier).
Proof.
  induction multiplier as [m Hm|m Hm IH] using halving_ind; intros r c Hr Hnn.
  - assert (m = 0) by lia; subst m.
    rewrite shift_accumulate_exit by lia.
    rewrite Z.mul_0_r, Z.add_0_r. symmetry. apply wrap32_small. exact Hr.
  - rewrite shift_accumulate_step by exact Hm.
    assert (Hq : 0 <= Z.shiftr m 1) by (apply Z.shiftr_nonneg; lia).
    rewrite Z.shiftl_mul_pow2 by lia. change (2 ^ 1) with 2.
    destruct (low_bit_cases m Hm) as [[Hbit Heq]|[Hbit Heq]]; rewrite Hbit; simpl negb; cbv iota.
    + rewrite (IH r _ Hr Hq).
      rewrite <- wrap32_add_r, wrap32_mul_l, wrap32_add_r.
      f_equal. rewrite Heq at 2. ring.
    + change (add_accumulate r c) with (wrap32 (r + c)).
      rewrite (IH _ _ (wrap32_u32 _) Hq).
      rewrite wrap32_add_l.
      rewrite <- wrap32_add_r, wrap32_mul_l, wrap32_add_r.
      f_equal. rewrite Heq at 2. ring.
Qed.

Lemma shift_accumulate_u32 (acc : Z -> Z -> Z) (multiplier : Z) :
  (forall r c, u32 r -> u32 c -> u32 (acc r c)) ->
  forall result current,
    u32 result -> u32 current ->
    u32 (shift_accumulate acc result current multiplier).
Proof.
  intros Hacc.
  induction multiplier as [m Hm|m Hm IH] using halving_ind; intros r c Hr Hc.
  - rewrite shift_accumulate_exit by lia. exact Hr.
  - rewrite shift_accumulate_step by exact Hm.
    apply IH; [|apply wrap32_u32].
    destruct (negb (Z.land m 1 =? 0)); [apply Hacc; assumption|exact Hr].
Qed.

Lemma shift_accumulate_counted_spec (acc : Z -> Z -> Z) (multiplier : Z) :
  forall result current,
    shift_accumulate_counted acc result current multiplier =
    (shift_accumulate acc result current multiplier, bit_length multiplier).
Proof.
  induction multiplier as [m Hm|m Hm IH] using halving_ind; intros r c.
  - rewrite shift_accumulate_counted_exit, shift_accumulate_exit by lia.
    destruct m; try lia; reflexivity.
  - rewrite shift_accumulate_counted_step, shift_accumulate_step by exact Hm.
    rewrite IH. rewrite (bit_length_step m Hm). reflexivity.
Qed.

(** The loop as iterations of its body: the guard holds before each of the
    [bit_length multiplier] iterations and fails after the last one. *)
Lemma loop_iterations (acc : Z -> Z -> Z) (multiplier : Z) :
  forall result current,
    let s0 := LoopState result current multiplier in
    let n := bit_length multiplier in
    loop_guard (Nat.iter n (loop_body acc) s0) = false /\
    (forall j, (j < n)%nat -> loop_guard (Nat.iter j (loop_body acc) s0) = true) /\
    st_result (Nat.iter n (loop_body acc) s0) =
    shift_accumulate acc result current multiplier.
Proof.
  induction multiplier as [m Hm|m Hm IH] using halving_ind; intros r c s0 n.
  - assert (En : n = O) by (subst n; destruct m; try lia; reflexivity).
    rewrite En. simpl. unfold loop_guard. simpl.
    rewrite shift_accumulate_exit by lia.
    repeat split; [apply Z.ltb_ge; lia | intros j Hj; lia].
  - subst n. rewrite (bit_length_step m Hm).
    rewrite shift_accumulate_step by exact Hm.
    set (s1 := loop_body acc s0).
    destruct (IH (st_result s1) (st_current s1)) as (Hexit & Hguard & Hres).
    assert (Es1 : LoopState (st_result s1) (st_current s1) (Z.shiftr m 1) = s1)
      by reflexivity.
    rewrite Es1 in Hexit, Hguard, Hres.
    rewrite !Nat.iter_succ_r. fold s1.
    repeat split.
    + exact Hexit.
    + intros [|j] Hj.
      * simpl. unfold loop_guard. simpl. apply Z.ltb_lt. exact Hm.
      * rewrite Nat.iter_succ_r. fold s1. apply Hguard. lia.
    + exact Hres.
Qed.

(** ** The arithmetic multiplier *)

Lemma multiplyNLFSR_wrap (value multiplier : Z) :
  0 <= multiplier ->
  AddDraft.multiplyNLFSR value multiplier = wrap32 (value * multiplier).
Proof.
  intros Hm. unfold AddDraft.multiplyNLFSR.
  rewrite shift_accumulate_add; [reflexivity| |exact Hm].
  unfold u32. rewrite modulus_eq. lia.
Qed.

Lemma multiplyNLFSR_u32 (value multiplier : Z) :
  u32 (AddDraft.multiplyNLFSR value multiplier).
Proof.
  destruct (Z_lt_dec multiplier 0) as [Hneg|Hnn].
  - unfold AddDraft.multiplyNLFSR. rewrite shift_accumulate_exit by lia.
    unfold u32. rewrite modulus_eq. lia.
  - rewrite multiplyNLFSR_wrap by lia. apply wrap32_u32.
Qed.

Lemma xor_multiplyNLFSR_u32 (value multiplier : Z) :
  u32 value -> u32 (XorDraft.multiplyNLFSR value multiplier).
Proof.
  intros Hv. unfold XorDraft.multiplyNLFSR.
  apply shift_accumulate_u32; [exact u32_lxor| |exact Hv].
  unfold u32. rewrite modulus_eq. lia.
Qed.

(** C1. For 32-bit [p] and [q] whose product fits in 32 bits, the corrected
    [multiplyNLFSR] (accumulation by [+=]) returns exactly [p * q]; and
    [multiplyNLFSR(p, 0) = 0], [multiplyNLFSR(p, 1) = p]. *)
Theorem multiplyNLFSR_exact_product (p q : Z) :
  u32 p -> u32 q -> p * q < modulus ->
  AddDraft.multiplyNLFSR p q = p * q /\
  AddDraft.multiplyNLFSR p 0 = 0 /\
  AddDraft.multiplyNLFSR p 1 = p.
Proof.
  intros Hp Hq Hfit. unfold u32 in Hp, Hq.
  rewrite !multiplyNLFSR_wrap by lia.
  rewrite Z.mul_0_r, Z.mul_1_r.
  split; [|split].
  - apply wrap32_small. unfold u32. nia.
  - reflexivity.
  - apply wrap32_small. exact Hp.
Qed.

Lemma multiplyNLFSR_exact_product_witness :
  AddDraft.multiplyNLFSR 12345 67890 = 12345 * 67890 /\
  AddDraft.multiplyNLFSR 12345 0 = 0 /\
  AddDraft.multiplyNLFSR 12345 1 = 12345.
Proof.
  apply (multiplyNLFSR_exact_product 12345 67890);
    unfold u32; rewrite ?modulus_eq; lia.
Defined.

(** ** The arithmetic polynomial evaluation *)

Lemma multiplyNLFSR_wrap_arg (value m : Z) :
  AddDraft.multiplyNLFSR value (wrap32 m) = wrap32 (value * m).
Proof.
  rewrite multiplyNLFSR_wrap by apply (proj1 (wrap32_u32 m)).
  apply wrap32_mul_r.
Qed.

Lemma wrap32_sum5 (t1 t2 t3 t4 t5 : Z) :
  wrap32 (wrap32 (wrap32 (wrap32 (wrap32 t1 + wrap32 t2) + wrap32 t3) + wrap32 t4) + t5)
  = wrap32 (t1 + t2 + t3 + t4 + t5).
Proof.
  rewrite (wrap32_add_l t1 (wrap32 t2)), (wrap32_add_r t1 t2).
  rewrite (wrap32_add_l (t1 + t2) (wrap32 t3)), (wrap32_add_r (t1 + t2) t3).
  rewrite (wrap32_add_l (t1 + t2 + t3) (wrap32 t4)), (wrap32_add_r (t1 + t2 + t3) t4).
  rewrite (wrap32_add_l (t1 + t2 + t3 + t4) t5).
  reflexivity.
Qed.

Lemma evaluatePolynomial_wrap (k : coefficients Z) (x : Z) :
  0 <= x ->
  AddDraft.evaluatePolynomial k x = wrap32 (polynomial_value k x).
Proof.
  intros Hx. unfold AddDraft.evaluatePolynomial, polynomial_value. cbv zeta.
  rewrite (multiplyNLFSR_wrap x x), (multiplyNLFSR_wrap x 1),
    (multiplyNLFSR_wrap (coef_d k) x) by lia.
  rewrite !multiplyNLFSR_wrap_arg, wrap32_sum5.
  f_equal. ring.
Qed.

(** C4. Whenever no power of [x], no term and no partial sum overflows 32
    bits, the corrected [evaluatePolynomial] returns exactly
    [a*x^4 + b*x^3 + c*x^2 + d*x + e]. *)
Theorem evaluatePolynomial_exact (k : coefficients Z) (x : Z) :
  u32_coefficients k -> u32 x -> polynomial_fits k x ->
  AddDraft.evaluatePolynomial k x =
  coef_a k * x ^ 4 + coef_b k * x ^ 3 + coef_c k * x ^ 2 + coef_d k * x + coef_e k.
Proof.
  intros (Ha & Hb & Hc & Hd & He) Hx Hfit.
  rewrite evaluatePolynomial_wrap by apply Hx.
  apply wrap32_small.
  destruct Hfit as (_ & _ & _ & _ & _ & _ & _ & _ & _ & _ & Hsum).
  unfold u32 in *. split; [|exact Hsum].
  unfold polynomial_value.
  assert (0 <= x ^ 4) by (apply Z.pow_nonneg; lia).
  assert (0 <= x ^ 3) by (apply Z.pow_nonneg; lia).
  assert (0 <= x ^ 2) by (apply Z.pow_nonneg; lia).
  nia.
Qed.

Lemma evaluatePolynomial_exact_witness :
  AddDraft.evaluatePolynomial fixture 10 =
  coef_a fixture * 10 ^ 4 + coef_b fixture * 10 ^ 3 + coef_c fixture * 10 ^ 2
  + coef_d fixture * 10 + coef_e fixture.
Proof.
  apply (evaluatePolynomial_exact fixture 10);
    unfold u32_coefficients, polynomial_fits, polynomial_value, u32;
    rewrite ?modulus_eq; simpl; lia.
Defined.

(** ** Integration over an empty interval, and the two modes side by side *)

(** C10. Over the empty interval [x, x] both integer drafts return 0: the XOR
    draft as [F(x) ^ F(x)], the arithmetic draft as [F(x) - F(x)]. *)
Theorem empty_interval_integrates_to_zero (k : coefficients Z) (x : Z) :
  XorDraft.symbolicIntegrationNLFSR k x x = 0 /\
  AddDraft.integratePolynomial k x x = 0.
Proof.
  split.
  - unfold XorDraft.symbolicIntegrationNLFSR. cbv zeta. apply Z.lxor_nilpotent.
  - unfold AddDraft.integratePolynomial. cbv zeta. rewrite Z.sub_diag. reflexivity.
Qed.

(** C3. The XOR draft and the arithmetic draft are not equivalent: on the
    sketches' own input (a=1, b=2, c=3, d=4, e=5 over [0, 10]) the first
    returns 514 and the second 26250. *)
Theorem xor_and_add_modes_diverge :
  exists (k : coefficients Z) (x_start x_end : Z),
    u32_coefficients k /\ u32 x_start /\ u32 x_end /\ x_start < x_end /\
    coef_a k <> 0 /\
    XorDraft.symbolicIntegrationNLFSR k x_start x_end = 514 /\
    AddDraft.integratePolynomial k x_start x_end = 26250 /\
    XorDraft.symbolicIntegrationNLFSR k x_start x_end <>
    AddDraft.integratePolynomial k x_start x_end.
Proof.
  exists fixture, 0, 10.
  assert (Hx : XorDraft.symbolicIntegrationNLFSR fixture 0 10 = 514)
    by (vm_compute; reflexivity).
  assert (Ha : AddDraft.integratePolynomial fixture 0 10 = 26250)
    by (vm_compute; reflexivity).
  rewrite Hx, Ha.
  unfold u32_coefficients, u32, fixture, coef_a, coef_b, coef_c, coef_d, coef_e.
  rewrite modulus_eq.
  repeat split; try lia; discriminate.
Qed.

(** ** Unsigned subtraction in [integratePolynomial] *)

Lemma evaluateAntiderivative_u32 (k : coefficients Z) (x : Z) :
  u32 (AddDraft.evaluateAntiderivative k x).
Proof. unfold AddDraft.evaluateAntiderivative. cbv zeta. apply wrap32_u32. Qed.

(** C5, as the code has it.  When [F(x_end) < F(x_start)] the arithmetic
    [integratePolynomial] hands back a value and no condition: the difference
    wrapped modulo 2^32, that is [F(x_end) - F(x_start) + 2^32]. *)
Theorem integratePolynomial_wraps (k : coefficients Z) (x_start x_end : Z) :
  AddDraft.evaluateAntiderivative k x_end < AddDraft.evaluateAntiderivative k x_start ->
  integratePolynomial_outcome k x_start x_end =
  Returned (AddDraft.evaluateAntiderivative k x_end
            - AddDraft.evaluateAntiderivative k x_start + modulus) /\
  signals Underflow (integratePolynomial_outcome k x_start x_end) = false.
Proof.
  intros Hlt. split; [|reflexivity].
  unfold integratePolynomial_outcome, AddDraft.integratePolynomial. cbv zeta.
  pose proof (evaluateAntiderivative_u32 k x_start) as Hs.
  pose proof (evaluateAntiderivative_u32 k x_end) as He.
  unfold u32 in Hs, He. f_equal. unfold wrap32.
  symmetry. apply Z.mod_unique with (q := -1); lia.
Qed.

Lemma integratePolynomial_wraps_witness :
  integratePolynomial_outcome fixture 10 0 =
  Returned (AddDraft.evaluateAntiderivative fixture 0
            - AddDraft.evaluateAntiderivative fixture 10 + modulus) /\
  signals Underflow (integratePolynomial_outcome fixture 10 0) = false.
Proof.
  apply (integratePolynomial_wraps fixture 10 0). vm_compute. reflexivity.
Defined.

(** C5 fails on the sketch: with the bounds swapped (x_start = 10, x_end = 0)
    the antiderivative difference is negative, and the call hands back
    4294941046 = 2^32 - 26250 without signalling anything. *)
Lemma integratePolynomial_no_underflow_signal :
  AddDraft.evaluateAntiderivative fixture 0 = 0 /\
  AddDraft.evaluateAntiderivative fixture 10 = 26250 /\
  integratePolynomial_outcome fixture 10 0 = Returned 4294941046 /\
  signals Underflow (integratePolynomial_outcome fixture 10 0) = false.
Proof. repeat split; vm_compute; reflexivity. Qed.

(** ** Rational terms of the antiderivative *)

Lemma evaluateAntiderivative_terms (k : coefficients Z) (x : Z) :
  let mul := AddDraft.multiplyNLFSR in
  AddDraft.evaluateAntiderivative k x =
  wrap32 (wrap32 (wrap32 (wrap32
    (AddDraft.scaled_term (coef_a k) 5 (mul x (mul x (mul x (mul x (mul x 1)))))
     + AddDraft.scaled_term (coef_b k) 4 (mul x (mul x (mul x (mul x 1)))))
     + AddDraft.scaled_term (coef_c k) 3 (mul x (mul x (mul x 1))))
     + AddDraft.scaled_term (coef_d k) 2 (mul x (mul x 1)))
     + mul (coef_e k) x).
Proof. reflexivity. Qed.

Lemma antiderivativeNLFSR_terms (k : coefficients Z) (x : Z) :
  let mul := XorDraft.multiplyNLFSR in
  XorDraft.antiderivativeNLFSR k x =
  Z.lxor (Z.lxor (Z.lxor (Z.lxor
    (XorDraft.scaled_term (coef_a k) 5 (mul x (mul x (mul x (mul x (mul x 1))))))
    (XorDraft.scaled_term (coef_b k) 4 (mul x (mul x (mul x (mul x 1))))))
    (XorDraft.scaled_term (coef_c k) 3 (mul x (mul x (mul x 1)))))
    (XorDraft.scaled_term (coef_d k) 2 (mul x (mul x 1))))
    (mul (coef_e k) x).
Proof. reflexivity. Qed.

Lemma xor_multiplyNLFSR_one (value : Z) : XorDraft.multiplyNLFSR value 1 = value.
Proof.
  unfold XorDraft.multiplyNLFSR.
  rewrite shift_accumulate_step by lia.
  rewrite shift_accumulate_exit by (vm_compute; discriminate).
  reflexivity.
Qed.

(** C6, as the code has it.  A rational term is a floor quotient: the
    corrected draft returns [(coefficient * power) / divisor], the first draft
    [coefficient / divisor] (times the power), the remainder being dropped;
    (10, 5, 1) and (11, 5, 1) both give 2, and no evaluation of the
    antiderivative signals [PrecisionLoss]. *)
Theorem scaled_term_truncates (coefficient divisor power : Z) :
  u32 coefficient -> u32 power -> 0 < divisor -> coefficient * power < modulus ->
  AddDraft.scaled_term coefficient divisor power = (coefficient * power) / divisor /\
  XorDraft.scaled_term coefficient divisor 1 = coefficient / divisor /\
  AddDraft.scaled_term 10 5 1 = 2 /\ AddDraft.scaled_term 11 5 1 = 2 /\
  XorDraft.scaled_term 10 5 1 = 2 /\ XorDraft.scaled_term 11 5 1 = 2 /\
  (forall k x, signals PrecisionLoss (evaluateAntiderivative_outcome k x) = false) /\
  (forall k x, signals PrecisionLoss (antiderivativeNLFSR_outcome k x) = false).
Proof.
  intros Hc Hp Hd Hfit.
  split; [|split].
  - unfold AddDraft.scaled_term. unfold u32 in Hc, Hp.
    rewrite multiplyNLFSR_wrap by lia.
    rewrite wrap32_small; [reflexivity|]. unfold u32. nia.
  - unfold XorDraft.scaled_term. apply xor_multiplyNLFSR_one.
  - repeat split; vm_compute; reflexivity.
Qed.

Lemma scaled_term_truncates_witness :
  AddDraft.scaled_term 11 5 1 = (11 * 1) / 5 /\
  XorDraft.scaled_term 11 5 1 = 11 / 5 /\
  AddDraft.scaled_term 10 5 1 = 2 /\ AddDraft.scaled_term 11 5 1 = 2 /\
  XorDraft.scaled_term 10 5 1 = 2 /\ XorDraft.scaled_term 11 5 1 = 2 /\
  (forall k x, signals PrecisionLoss (evaluateAntiderivative_outcome k x) = false) /\
  (forall k x, signals PrecisionLoss (antiderivativeNLFSR_outcome k x) = false).
Proof.
  apply (scaled_term_truncates 11 5 1);
    unfold u32; rewrite ?modulus_eq; lia.
Defined.

(** C6 fails on the sketches: the coefficient 11 with divisor 5 and power 1
    (a = 11, the other coefficients 0, x = 1) leaves the remainder 1, and both
    antiderivative evaluations hand back the truncated 2 without a signal. *)
Lemma scaling_no_precision_loss_signal :
  11 mod 5 = 1 /\
  AddDraft.scaled_term 11 5 1 = 2 /\
  XorDraft.scaled_term 11 5 1 = 2 /\
  evaluateAntiderivative_outcome (Coefficients 11 0 0 0 0) 1 = Returned 2 /\
  antiderivativeNLFSR_outcome (Coefficients 11 0 0 0 0) 1 = Returned 2 /\
  signals PrecisionLoss (evaluateAntiderivative_outcome (Coefficients 11 0 0 0 0) 1)
  = false /\
  signals PrecisionLoss (antiderivativeNLFSR_outcome (Coefficients 11 0 0 0 0) 1)
  = false.
Proof. repeat split; vm_compute; reflexivity. Qed.

(** ** Termination and iteration counts *)

Lemma u32_one : u32 1.
Proof. unfold u32. rewrite modulus_eq. lia. Qed.

Create HintDb u32 discriminated.
#[local] Hint Resolve u32_one multiplyNLFSR_u32 xor_multiplyNLFSR_u32 wrap32_u32 : u32.

Lemma add_multiplyNLFSR_counted (value : Z) (m : counted Z) :
  AddDraft.multiplyNLFSR_counted value m =
  (AddDraft.multiplyNLFSR value (fst m), (snd m + bit_length (fst m))%nat).
Proof.
  destruct m as [v n]. unfold AddDraft.multiplyNLFSR_counted, bind.
  rewrite shift_accumulate_counted_spec. reflexivity.
Qed.

Lemma xor_multiplyNLFSR_counted (value : Z) (m : counted Z) :
  XorDraft.multiplyNLFSR_counted value m =
  (XorDraft.multiplyNLFSR value (fst m), (snd m + bit_length (fst m))%nat).
Proof.
  destruct m as [v n]. unfold XorDraft.multiplyNLFSR_counted, bind.
  rewrite shift_accumulate_counted_spec. reflexivity.
Qed.

Lemma lift2_counted {A : Type} (op : A -> A -> A) (m1 m2 : counted A) :
  lift2 op m1 m2 = (op (fst m1) (fst m2), (snd m1 + (snd m2 + 0))%nat).
Proof. destruct m1, m2. reflexivity. Qed.

Lemma divide_counted_spec (m : counted Z) (divisor : Z) :
  AddDraft.divide_counted m divisor = (fst m / divisor, (snd m + 0)%nat).
Proof. destruct m. reflexivity. Qed.

Lemma bind_counted {A B : Type} (m : counted A) (f : A -> counted B) :
  bind m f = (fst (f (fst m)), (snd m + snd (f (fst m)))%nat).
Proof. destruct m as [x n]. unfold bind. cbn [fst snd]. destruct (f x). reflexivity. Qed.

(** Every [bit_length t] of the goal is at most 32, [t] being a 32-bit value. *)
Ltac bound_iterations :=
  repeat match goal with
    | |- context [bit_length ?t] =>
        let n := fresh "n" in
        let Hn := fresh "Hn" in
        assert (Hn : (bit_length t <= 32)%nat)
          by (apply bit_length_u32; auto 8 with u32);
        set (n := bit_length t) in *; clearbody n
    end;
  lia.

Lemma evaluatePolynomial_counted_spec (k : coefficients Z) (x : Z) :
  u32 x ->
  fst (AddDraft.evaluatePolynomial_counted k x) = AddDraft.evaluatePolynomial k x /\
  (snd (AddDraft.evaluatePolynomial_counted k x) <= 12 * 32)%nat.
Proof.
  intros Hx. unfold AddDraft.evaluatePolynomial_counted, AddDraft.add_counted.
  cbv zeta.
  rewrite ?lift2_counted, ?add_multiplyNLFSR_counted; unfold ret; cbn [fst snd].
  split; [reflexivity|]. bound_iterations.
Qed.

Lemma evaluateAntiderivative_counted_spec (k : coefficients Z) (x : Z) :
  u32 x ->
  fst (AddDraft.evaluateAntiderivative_counted k x) = AddDraft.evaluateAntiderivative k x /\
  (snd (AddDraft.evaluateAntiderivative_counted k x) <= 19 * 32)%nat.
Proof.
  intros Hx.
  unfold AddDraft.evaluateAntiderivative_counted, AddDraft.add_counted.
  cbv zeta.
  rewrite ?lift2_counted, ?divide_counted_spec, ?add_multiplyNLFSR_counted;
    unfold ret; cbn [fst snd].
  split; [reflexivity|]. bound_iterations.
Qed.

Lemma antiderivativeNLFSR_counted_spec (k : coefficients Z) (x : Z) :
  u32 x ->
  fst (XorDraft.antiderivativeNLFSR_counted k x) = XorDraft.antiderivativeNLFSR k x /\
  (snd (XorDraft.antiderivativeNLFSR_counted k x) <= 19 * 32)%nat.
Proof.
  intros Hx. unfold XorDraft.antiderivativeNLFSR_counted. cbv zeta.
  rewrite ?lift2_counted, ?xor_multiplyNLFSR_counted; unfold ret; cbn [fst snd].
  split; [reflexivity|]. bound_iterations.
Qed.

(** C8. The shift-and-accumulate loop leaves after at most 32 iterations for
    every pair of 32-bit inputs (whatever the accumulation), with the value
    [multiplyNLFSR] returns; and a polynomial evaluation runs 12 such loops, an
    integration 38, so at most 384 and 1216 iterations. *)
Theorem evaluations_terminate
  (acc : Z -> Z -> Z) (k : coefficients Z) (value multiplier x_start x_end : Z) :
  u32 value -> u32 multiplier -> u32 x_start -> u32 x_end ->
  (exists n : nat,
      (n <= 32)%nat /\
      loop_guard (Nat.iter n (loop_body acc) (loop_entry value multiplier)) = false /\
      (forall j, (j < n)%nat ->
         loop_guard (Nat.iter j (loop_body acc) (loop_entry value multiplier)) = true) /\
      st_result (Nat.iter n (loop_body acc) (loop_entry value multiplier)) =
      shift_accumulate acc 0 value multiplier) /\
  (fst (AddDraft.evaluatePolynomial_counted k x_start) =
     AddDraft.evaluatePolynomial k x_start /\
   (snd (AddDraft.evaluatePolynomial_counted k x_start) <= 384)%nat) /\
  (fst (AddDraft.integratePolynomial_counted k x_start x_end) =
     AddDraft.integratePolynomial k x_start x_end /\
   (snd (AddDraft.integratePolynomial_counted k x_start x_end) <= 1216)%nat) /\
  (fst (XorDraft.symbolicIntegrationNLFSR_counted k x_start x_end) =
     XorDraft.symbolicIntegrationNLFSR k x_start x_end /\
   (snd (XorDraft.symbolicIntegrationNLFSR_counted k x_start x_end) <= 1216)%nat).
Proof.
  intros Hv Hm Hs He.
  split; [|split; [|split]].
  - exists (bit_length multiplier).
    split; [apply bit_length_u32; exact Hm|].
    exact (loop_iterations acc multiplier 0 value).
  - destruct (evaluatePolynomial_counted_spec k x_start Hs) as [Hf Hn].
    split; [exact Hf|]. change (12 * 32)%nat with 384%nat in Hn. exact Hn.
  - destruct (evaluateAntiderivative_counted_spec k x_start Hs) as [Hfs Hns].
    destruct (evaluateAntiderivative_counted_spec k x_end He) as [Hfe Hne].
    unfold AddDraft.integratePolynomial_counted, AddDraft.integratePolynomial.
    rewrite !bind_counted. unfold ret. cbn [fst snd]. rewrite Hfs, Hfe.
    split; [reflexivity|]. simpl in Hns, Hne. lia.
  - destruct (antiderivativeNLFSR_counted_spec k x_start Hs) as [Hfs Hns].
    destruct (antiderivativeNLFSR_counted_spec k x_end He) as [Hfe Hne].
    unfold XorDraft.symbolicIntegrationNLFSR_counted, XorDraft.symbolicIntegrationNLFSR.
    rewrite !bind_counted. unfold ret. cbn [fst snd]. rewrite Hfs, Hfe.
    split; [reflexivity|]. simpl in Hns, Hne. lia.
Qed.

Lemma evaluations_terminate_witness :
  (exists n : nat,
      (n <= 32)%nat /\
      loop_guard (Nat.iter n (loop_body add_accumulate) (loop_entry 12345 4294967295))
      = false /\
      (forall j, (j < n)%nat ->
         loop_guard (Nat.iter j (loop_body add_accumulate) (loop_entry 12345 4294967295))
         = true) /\
      st_result (Nat.iter n (loop_body add_accumulate) (loop_entry 12345 4294967295)) =
      shift_accumulate add_accumulate 0 12345 4294967295) /\
  (fst (AddDraft.evaluatePolynomial_counted fixture 0) =
     AddDraft.evaluatePolynomial fixture 0 /\
   (snd (AddDraft.evaluatePolynomial_counted fixture 0) <= 384)%nat) /\
  (fst (AddDraft.integratePolynomial_counted fixture 0 10) =
     AddDraft.integratePolynomial fixture 0 10 /\
   (snd (AddDraft.integratePolynomial_counted fixture 0 10) <= 1216)%nat) /\
  (fst (XorDraft.symbolicIntegrationNLFSR_counted fixture 0 10) =
     XorDraft.symbolicIntegrationNLFSR fixture 0 10 /\
   (snd (XorDraft.symbolicIntegrationNLFSR_counted fixture 0 10) <= 1216)%nat).
Proof.
  apply (evaluations_terminate add_accumulate fixture 12345 4294967295 0 10);
    unfold u32; rewrite ?modulus_eq; lia.
Defined.

(** ** The floating-point drafts *)

(** C9. The antiderivative of the "NLFSR" sketch over [double] and the plain
    symbolic antiderivative are the same function, whatever the arithmetic of
    [double] is: both return
    [(a/5)*pow(x,5) + (b/4)*pow(x,4) + (c/3)*pow(x,3) + (d/2)*pow(x,2) + e*x],
    summed from the left; so do the two integrations built on them. *)
Theorem antiderivative_drafts_agree
  {D : Type} {arith : DoubleArith D} (k : coefficients D) (x x_start x_end : D) :
  RingDraft.antiderivativeNLFSR k x = Symbolic.polynomialAntiderivative k x /\
  Symbolic.polynomialAntiderivative k x =
    dadd (dadd (dadd (dadd (dmul (ddiv (coef_a k) (dconst 5)) (dpow x 5))
                           (dmul (ddiv (coef_b k) (dconst 4)) (dpow x 4)))
                     (dmul (ddiv (coef_c k) (dconst 3)) (dpow x 3)))
               (dmul (ddiv (coef_d k) (dconst 2)) (dpow x 2)))
         (dmul (coef_e k) x) /\
  RingDraft.symbolicIntegrationNLFSR k x_start x_end =
    Symbolic.symbolicIntegration k x_start x_end.
Proof. repeat split. Qed.

(** In exact arithmetic that common value is the antiderivative polynomial. *)
Lemma polynomialAntiderivative_exact (k : coefficients Qc) (x : Qc) :
  Symbolic.polynomialAntiderivative k x =
  (coef_a k / dconst 5 * x ^ 5 + coef_b k / dconst 4 * x ^ 4 + coef_c k / dconst 3 * x ^ 3
   + coef_d k / dconst 2 * x ^ 2 + coef_e k * x)%Qc.
Proof. reflexivity. Qed.

(** ** The trapezoidal rule *)

Lemma sum_middle_terms_step {D : Type} {arith : DoubleArith D}
  (k : coefficients D) (x_start h : D) (num_intervals i : Z) (integral : D) :
  i < num_intervals ->
  Trapezoid.sum_middle_terms k x_start h num_intervals i integral =
  Trapezoid.sum_middle_terms k x_start h num_intervals (i + 1)
    (dadd integral (Trapezoid.polynomial k (dadd x_start (dmul (dconst i) h)))).
Proof.
  intros Hi. rewrite Trapezoid.sum_middle_terms_equation_1.
  destruct (Z_lt_dec i num_intervals) as [Hlt|Hge]; [reflexivity|contradiction].
Qed.

Lemma sum_middle_terms_exit {D : Type} {arith : DoubleArith D}
  (k : coefficients D) (x_start h : D) (num_intervals i : Z) (integral : D) :
  num_intervals <= i ->
  Trapezoid.sum_middle_terms k x_start h num_intervals i integral = integral.
Proof.
  intros Hi. rewrite Trapezoid.sum_middle_terms_equation_1.
  destruct (Z_lt_dec i num_intervals) as [Hlt|Hge]; [lia|reflexivity].
Qed.

(** Whatever the arithmetic, the loop adds the samples at
    [i, i+1, ..., num_intervals - 1] to [integral] one after the other. *)
Lemma sum_middle_terms_fold {D : Type} {arith : DoubleArith D}
  (k : coefficients D) (x_start h : D) (num_intervals : Z) (count : nat) :
  forall (i : Z) (integral : D),
    Z.to_nat (num_intervals - i) = count ->
    Trapezoid.sum_middle_terms k x_start h num_intervals i integral =
    fold_left
      (fun s j => dadd s (Trapezoid.polynomial k (dadd x_start (dmul (dconst j) h))))
      (map (fun j => i + Z.of_nat j) (seq 0 count)) integral.
Proof.
  induction count as [|count IH]; intros i integral Hcount.
  - rewrite sum_middle_terms_exit by lia. reflexivity.
  - rewrite sum_middle_terms_step by lia. rewrite IH by lia.
    cbn [seq map fold_left]. rewrite Z.add_0_r.
    rewrite <- seq_shift, map_map. f_equal.
    apply map_ext. intros j. lia.
Qed.

Lemma polynomial_quartic (k : coefficients Qc) (x : Qc) :
  Trapezoid.polynomial k x = quartic k x.
Proof. reflexivity. Qed.

Lemma sum_middle_terms_sum
  (k : coefficients Qc) (x_start h : Qc) (num_intervals : Z) (count : nat) :
  forall (i : Z) (integral : Qc),
    Z.to_nat (num_intervals - i) = count ->
    Trapezoid.sum_middle_terms k x_start h num_intervals i integral =
    (integral + sum_from (fun j => quartic k (x_start + dconst j * h)) i count)%Qc.
Proof.
  induction count as [|count IH]; intros i integral Hcount.
  - rewrite sum_middle_terms_exit by lia. simpl. ring.
  - rewrite sum_middle_terms_step by lia.
    rewrite IH by lia. rewrite polynomial_quartic. simpl. ring.
Qed.

(** In exact arithmetic the loop form and the trapezoidal rule coincide. *)
Lemma trapezoidalIntegration_exact_rule
  (k : coefficients Qc) (x_start x_end : Qc) (n : Z) :
  Trapezoid.trapezoidalIntegration k x_start x_end n =
  trapezoidal_rule k x_start x_end n.
Proof.
  unfold Trapezoid.trapezoidalIntegration, trapezoidal_rule. cbv zeta.
  rewrite (sum_middle_terms_sum k x_start _ n (Z.to_nat (n - 1))) by reflexivity.
  change (Trapezoid.polynomial k x_start) with (quartic k x_start).
  change (Trapezoid.polynomial k x_end) with (quartic k x_end).
  change (dconst 0) with 0%Qc.
  cbv [dadd dsub dmul ddiv exact_arith Qcdiv].
  ring.
Qed.

(** ** The fixture a=1, b=2, c=3, d=4, e=5 over [0, 10] *)


Lemma trapezoidalIntegration_fixture :
  Trapezoid.trapezoidalIntegration exact_fixture (dconst 0) (dconst 10)
    num_intervals_default
  = Q2Qc (2625003883333 # 100000000).
Proof. apply Qc_is_canon. vm_compute. reflexivity. Qed.



(** ** More on the two multipliers *)

Lemma wrap32_land (z : Z) : wrap32 z = Z.land z (Z.ones 32).
Proof. unfold wrap32, modulus, width. rewrite Z.land_ones by lia. reflexivity. Qed.

Lemma wrap32_lxor (x y : Z) : wrap32 (Z.lxor x y) = Z.lxor (wrap32 x) (wrap32 y).
Proof.
  rewrite !wrap32_land. apply Z.bits_inj'. intros n Hn.
  rewrite !Z.lxor_spec, !Z.land_spec, !Z.lxor_spec.
  destruct (Z.testbit x n), (Z.testbit y n), (Z.testbit (Z.ones 32) n); reflexivity.
Qed.

Lemma lxor_swap_middle (p q r s : Z) :
  Z.lxor (Z.lxor p q) (Z.lxor r s) = Z.lxor (Z.lxor p r) (Z.lxor q s).
Proof.
  rewrite !Z.lxor_assoc. f_equal.
  rewrite <- !Z.lxor_assoc. f_equal. apply Z.lxor_comm.
Qed.

Lemma shift_accumulate_xor_linear (multiplier : Z) :
  forall r1 r2 c1 c2,
    shift_accumulate xor_accumulate (Z.lxor r1 r2) (Z.lxor c1 c2) multiplier =
    Z.lxor (shift_accumulate xor_accumulate r1 c1 multiplier)
           (shift_accumulate xor_accumulate r2 c2 multiplier).
Proof.
  induction multiplier as [m Hm|m Hm IH] using halving_ind; intros r1 r2 c1 c2.
  - rewrite !shift_accumulate_exit by lia. reflexivity.
  - rewrite !(shift_accumulate_step xor_accumulate _ _ m) by exact Hm.
    rewrite Z.shiftl_lxor, wrap32_lxor.
    destruct (negb (Z.land m 1 =? 0)).
    + unfold xor_accumulate. rewrite lxor_swap_middle. apply IH.
    + apply IH.
Qed.

(** X1. The XOR multiplier is linear in its first argument over XOR:
    [multiplyNLFSR(v1 ^ v2, m) = multiplyNLFSR(v1, m) ^ multiplyNLFSR(v2, m)]. *)
Theorem xor_multiplyNLFSR_linear (v1 v2 multiplier : Z) :
  XorDraft.multiplyNLFSR (Z.lxor v1 v2) multiplier =
  Z.lxor (XorDraft.multiplyNLFSR v1 multiplier) (XorDraft.multiplyNLFSR v2 multiplier).
Proof.
  unfold XorDraft.multiplyNLFSR.
  rewrite <- shift_accumulate_xor_linear. reflexivity.
Qed.

Lemma shift_accumulate_power_of_two (acc : Z -> Z -> Z) (k : nat) :
  (forall c, u32 c -> acc 0 c = c) ->
  forall current,
    u32 current ->
    shift_accumulate acc 0 current (2 ^ Z.of_nat k) =
    wrap32 (current * 2 ^ Z.of_nat k).
Proof.
  intros Hacc. induction k as [|k IH]; intros c Hc.
  - change (2 ^ Z.of_nat 0) with 1.
    rewrite shift_accumulate_step by lia.
    rewrite shift_accumulate_exit by (vm_compute; discriminate).
    change (negb (Z.land 1 1 =? 0)) with true. cbv iota.
    rewrite (Hacc c Hc), Z.mul_1_r. symmetry. apply wrap32_small. exact Hc.
  - assert (Hpos : 0 < 2 ^ Z.of_nat k) by (apply Z.pow_pos_nonneg; lia).
    rewrite Nat2Z.inj_succ, Z.pow_succ_r by lia.
    rewrite shift_accumulate_step by lia.
    destruct (low_bit_cases (2 * 2 ^ Z.of_nat k) ltac:(lia)) as [[Hbit Heq]|[Hbit Heq]];
      [|lia].
    rewrite Hbit. simpl negb. cbv iota.
    replace (Z.shiftr (2 * 2 ^ Z.of_nat k) 1) with (2 ^ Z.of_nat k) by lia.
    rewrite (IH _ (wrap32_u32 _)). rewrite Z.shiftl_mul_pow2 by lia. change (2 ^ 1) with 2.
    rewrite wrap32_mul_l. f_equal. ring.
Qed.

(** X2. When the multiplier is a power of two the XOR multiplier and the
    arithmetic multiplier agree: both return [value * 2^k] modulo 2^32. *)
Theorem multipliers_agree_on_powers_of_two (value k : Z) :
  u32 value -> 0 <= k < width ->
  XorDraft.multiplyNLFSR value (2 ^ k) = wrap32 (value * 2 ^ k) /\
  AddDraft.multiplyNLFSR value (2 ^ k) = wrap32 (value * 2 ^ k).
Proof.
  intros Hv Hk. unfold XorDraft.multiplyNLFSR, AddDraft.multiplyNLFSR.
  rewrite <- (Z2Nat.id k) by lia.
  split; apply shift_accumulate_power_of_two; try exact Hv; intros c Hc.
  - apply Z.lxor_0_l.
  - change (add_accumulate 0 c) with (wrap32 c). apply wrap32_small. exact Hc.
Qed.

Lemma multipliers_agree_on_powers_of_two_witness :
  XorDraft.multiplyNLFSR 123456789 (2 ^ 7) = wrap32 (123456789 * 2 ^ 7) /\
  AddDraft.multiplyNLFSR 123456789 (2 ^ 7) = wrap32 (123456789 * 2 ^ 7).
Proof.
  apply (multipliers_agree_on_powers_of_two 123456789 7);
    unfold u32, width; rewrite ?modulus_eq; lia.
Defined.

Lemma shift_accumulate_zero_current (multiplier : Z) :
  forall result, shift_accumulate xor_accumulate result 0 multiplier = result.
Proof.
  induction multiplier as [m Hm|m Hm IH] using halving_ind; intros r.
  - apply shift_accumulate_exit. lia.
  - rewrite shift_accumulate_step by exact Hm.
    change (wrap32 (Z.shiftl 0 1)) with 0. unfold xor_accumulate.
    rewrite Z.lxor_0_r. destruct (negb (Z.land m 1 =? 0)); apply IH.
Qed.

(** X3. Edge behaviour of the XOR multiplier: a zero on either side gives 0,
    the multiplier 1 gives the value back, and the result of 32-bit inputs
    stays in the 32-bit range. *)
Theorem xor_multiplyNLFSR_edges (value multiplier : Z) :
  u32 value ->
  XorDraft.multiplyNLFSR value 0 = 0 /\
  XorDraft.multiplyNLFSR 0 multiplier = 0 /\
  XorDraft.multiplyNLFSR value 1 = value /\
  u32 (XorDraft.multiplyNLFSR value multiplier).
Proof.
  intros Hv. split; [|split; [|split]].
  - unfold XorDraft.multiplyNLFSR. apply shift_accumulate_exit. lia.
  - unfold XorDraft.multiplyNLFSR. apply shift_accumulate_zero_current.
  - apply xor_multiplyNLFSR_one.
  - apply xor_multiplyNLFSR_u32. exact Hv.
Qed.

Lemma xor_multiplyNLFSR_edges_witness :
  XorDraft.multiplyNLFSR 4294967295 0 = 0 /\
  XorDraft.multiplyNLFSR 0 4294967295 = 0 /\
  XorDraft.multiplyNLFSR 4294967295 1 = 4294967295 /\
  u32 (XorDraft.multiplyNLFSR 4294967295 4294967295).
Proof.
  apply (xor_multiplyNLFSR_edges 4294967295 4294967295).
  unfold u32; rewrite ?modulus_eq; lia.
Defined.

(** X4. For all 32-bit inputs, overflowing or not, the arithmetic multiplier
    returns [p * q] modulo 2^32, and it is commutative. *)
Theorem multiplyNLFSR_modular (p q : Z) :
  u32 p -> u32 q ->
  AddDraft.multiplyNLFSR p q = (p * q) mod 2 ^ 32 /\
  AddDraft.multiplyNLFSR p q = AddDraft.multiplyNLFSR q p.
Proof.
  intros Hp Hq. unfold u32 in Hp, Hq.
  rewrite !multiplyNLFSR_wrap by lia.
  split; [reflexivity|]. f_equal. ring.
Qed.

Lemma multiplyNLFSR_modular_witness :
  AddDraft.multiplyNLFSR 4294967295 65537 = (4294967295 * 65537) mod 2 ^ 32 /\
  AddDraft.multiplyNLFSR 4294967295 65537 = AddDraft.multiplyNLFSR 65537 4294967295.
Proof.
  apply (multiplyNLFSR_modular 4294967295 65537);
    unfold u32; rewrite ?modulus_eq; lia.
Defined.

(** X5. The arithmetic multiplier is associative, and distributes over the
    wrapping 32-bit addition. *)
Theorem multiplyNLFSR_ring_laws (p q r : Z) :
  u32 p -> u32 q -> u32 r ->
  AddDraft.multiplyNLFSR p (AddDraft.multiplyNLFSR q r) =
  AddDraft.multiplyNLFSR (AddDraft.multiplyNLFSR p q) r /\
  AddDraft.multiplyNLFSR p (wrap32 (q + r)) =
  wrap32 (AddDraft.multiplyNLFSR p q + AddDraft.multiplyNLFSR p r).
Proof.
  intros Hp Hq Hr. unfold u32 in Hp, Hq, Hr. split.
  - rewrite (multiplyNLFSR_wrap q r), (multiplyNLFSR_wrap p q) by lia.
    rewrite multiplyNLFSR_wrap_arg.
    rewrite (multiplyNLFSR_wrap _ r) by lia.
    rewrite wrap32_mul_l. f_equal. ring.
  - rewrite multiplyNLFSR_wrap_arg.
    rewrite !multiplyNLFSR_wrap by lia.
    rewrite wrap32_add_l, wrap32_add_r. f_equal. ring.
Qed.

Lemma multiplyNLFSR_ring_laws_witness :
  AddDraft.multiplyNLFSR 70000 (AddDraft.multiplyNLFSR 80000 90000) =
  AddDraft.multiplyNLFSR (AddDraft.multiplyNLFSR 70000 80000) 90000 /\
  AddDraft.multiplyNLFSR 70000 (wrap32 (80000 + 90000)) =
  wrap32 (AddDraft.multiplyNLFSR 70000 80000 + AddDraft.multiplyNLFSR 70000 90000).
Proof.
  apply (multiplyNLFSR_ring_laws 70000 80000 90000);
    unfold u32; rewrite ?modulus_eq; lia.
Defined.

(** ** More on the integer evaluations *)

(** X6. For every 32-bit [x], overflowing or not, the arithmetic
    [evaluatePolynomial] returns [a*x^4 + b*x^3 + c*x^2 + d*x + e] reduced
    modulo 2^32: an overflow wraps around silently. *)
Theorem evaluatePolynomial_modular (k : coefficients Z) (x : Z) :
  u32 x ->
  AddDraft.evaluatePolynomial k x =
  (coef_a k * x ^ 4 + coef_b k * x ^ 3 + coef_c k * x ^ 2 + coef_d k * x + coef_e k)
    mod 2 ^ 32.
Proof. intros Hx. apply evaluatePolynomial_wrap. apply Hx. Qed.

Lemma evaluatePolynomial_modular_witness :
  AddDraft.evaluatePolynomial fixture 1000 =
  (coef_a fixture * 1000 ^ 4 + coef_b fixture * 1000 ^ 3 + coef_c fixture * 1000 ^ 2
   + coef_d fixture * 1000 + coef_e fixture) mod 2 ^ 32.
Proof.
  apply (evaluatePolynomial_modular fixture 1000).
  unfold u32; rewrite ?modulus_eq; lia.
Defined.

Lemma evaluateAntiderivative_wrap (k : coefficients Z) (x : Z) :
  0 <= x ->
  AddDraft.evaluateAntiderivative k x =
  wrap32 (wrap32 (coef_a k * x ^ 5) / 5 + wrap32 (coef_b k * x ^ 4) / 4
          + wrap32 (coef_c k * x ^ 3) / 3 + wrap32 (coef_d k * x ^ 2) / 2
          + coef_e k * x).
Proof.
  intros Hx. unfold AddDraft.evaluateAntiderivative. cbv zeta.
  rewrite (multiplyNLFSR_wrap x 1), (multiplyNLFSR_wrap (coef_e k) x) by lia.
  rewrite !multiplyNLFSR_wrap_arg.
  replace (coef_a k * (x * (x * (x * (x * (x * 1)))))) with (coef_a k * x ^ 5) by ring.
  replace (coef_b k * (x * (x * (x * (x * 1))))) with (coef_b k * x ^ 4) by ring.
  replace (coef_c k * (x * (x * (x * 1)))) with (coef_c k * x ^ 3) by ring.
  replace (coef_d k * (x * (x * 1))) with (coef_d k * x ^ 2) by ring.
  set (t1 := wrap32 (coef_a k * x ^ 5) / 5).
  set (t2 := wrap32 (coef_b k * x ^ 4) / 4).
  set (t3 := wrap32 (coef_c k * x ^ 3) / 3).
  set (t4 := wrap32 (coef_d k * x ^ 2) / 2).
  rewrite (wrap32_add_l (t1 + t2) t3), (wrap32_add_l (t1 + t2 + t3) t4).
  rewrite (wrap32_add_l (t1 + t2 + t3 + t4)), wrap32_add_r.
  reflexivity.
Qed.

(** X7. Whenever no coefficient-times-power product and no sum of terms
    overflows 32 bits, the arithmetic [evaluateAntiderivative] returns
    [a*x^5/5 + b*x^4/4 + c*x^3/3 + d*x^2/2 + e*x], each division rounding
    down. *)
Theorem evaluateAntiderivative_exact (k : coefficients Z) (x : Z) :
  u32_coefficients k -> u32 x -> antiderivative_fits k x ->
  AddDraft.evaluateAntiderivative k x =
  coef_a k * x ^ 5 / 5 + coef_b k * x ^ 4 / 4 + coef_c k * x ^ 3 / 3
  + coef_d k * x ^ 2 / 2 + coef_e k * x.
Proof.
  intros (Ha & Hb & Hc & Hd & He) Hx (Fa & Fb & Fc & Fd & Fsum).
  unfold u32 in *. unfold antiderivative_value in Fsum.
  rewrite evaluateAntiderivative_wrap by lia.
  assert (P5 : 0 <= x ^ 5) by (apply Z.pow_nonneg; lia).
  assert (P4 : 0 <= x ^ 4) by (apply Z.pow_nonneg; lia).
  assert (P3 : 0 <= x ^ 3) by (apply Z.pow_nonneg; lia).
  assert (P2 : 0 <= x ^ 2) by (apply Z.pow_nonneg; lia).
  rewrite !(wrap32_small (_ * x ^ _)) by (unfold u32; nia).
  apply wrap32_small. unfold u32. split; [|exact Fsum].
  assert (0 <= coef_a k * x ^ 5 / 5) by (apply Z.div_pos; nia).
  assert (0 <= coef_b k * x ^ 4 / 4) by (apply Z.div_pos; nia).
  assert (0 <= coef_c k * x ^ 3 / 3) by (apply Z.div_pos; nia).
  assert (0 <= coef_d k * x ^ 2 / 2) by (apply Z.div_pos; nia).
  nia.
Qed.

Lemma evaluateAntiderivative_exact_witness :
  AddDraft.evaluateAntiderivative (Coefficients 7 6 5 4 3) 9 =
  coef_a (Coefficients 7 6 5 4 3) * 9 ^ 5 / 5 + coef_b (Coefficients 7 6 5 4 3) * 9 ^ 4 / 4
  + coef_c (Coefficients 7 6 5 4 3) * 9 ^ 3 / 3 + coef_d (Coefficients 7 6 5 4 3) * 9 ^ 2 / 2
  + coef_e (Coefficients 7 6 5 4 3) * 9.
Proof.
  apply (evaluateAntiderivative_exact (Coefficients 7 6 5 4 3) 9);
    unfold u32_coefficients, antiderivative_fits, antiderivative_value, u32;
    rewrite ?modulus_eq; simpl; lia.
Defined.

(** X8. When [F(x_start) <= F(x_end)] the arithmetic [integratePolynomial]
    returns exactly [F(x_end) - F(x_start)], and over [0, x] it returns
    [F(x)]. *)
Theorem integratePolynomial_exact_difference (k : coefficients Z) (x_start x_end : Z) :
  AddDraft.evaluateAntiderivative k x_start <= AddDraft.evaluateAntiderivative k x_end ->
  AddDraft.integratePolynomial k x_start x_end =
  AddDraft.evaluateAntiderivative k x_end - AddDraft.evaluateAntiderivative k x_start /\
  AddDraft.integratePolynomial k 0 x_end = AddDraft.evaluateAntiderivative k x_end.
Proof.
  intros Hle.
  pose proof (evaluateAntiderivative_u32 k x_start) as Hs.
  pose proof (evaluateAntiderivative_u32 k x_end) as He.
  unfold AddDraft.integratePolynomial. cbv zeta. split.
  - apply wrap32_small. unfold u32 in *. lia.
  - assert (H0 : AddDraft.evaluateAntiderivative k 0 = 0).
    { rewrite evaluateAntiderivative_wrap by lia.
      rewrite !Z.pow_0_l, !Z.mul_0_r by lia. reflexivity. }
    rewrite H0, Z.sub_0_r. apply wrap32_small. exact He.
Qed.

Lemma integratePolynomial_exact_difference_witness :
  AddDraft.integratePolynomial fixture 3 10 =
  AddDraft.evaluateAntiderivative fixture 10 - AddDraft.evaluateAntiderivative fixture 3 /\
  AddDraft.integratePolynomial fixture 0 10 = AddDraft.evaluateAntiderivative fixture 10.
Proof.
  apply (integratePolynomial_exact_difference fixture 3 10).
  vm_compute. discriminate.
Defined.

(** X9. Modulo 2^32 the arithmetic [integratePolynomial] is additive over
    adjacent intervals and changes sign when the bounds are swapped. *)
Theorem integratePolynomial_additive (k : coefficients Z) (x1 x2 x3 : Z) :
  wrap32 (AddDraft.integratePolynomial k x1 x2 + AddDraft.integratePolynomial k x2 x3)
  = AddDraft.integratePolynomial k x1 x3 /\
  wrap32 (AddDraft.integratePolynomial k x1 x2 + AddDraft.integratePolynomial k x2 x1)
  = 0.
Proof.
  unfold AddDraft.integratePolynomial. cbv zeta.
  rewrite !wrap32_add_l, !wrap32_add_r. split.
  - f_equal. ring.
  - replace (_ - _ + (_ - _)) with 0 by ring. reflexivity.
Qed.

(** X10. The XOR integrations forget the orientation of the interval: swapping
    the bounds gives the same result, and the results over adjacent intervals
    XOR to the result over their union (both XOR drafts). *)
Theorem xor_integration_symmetric (k : coefficients Z) (x1 x2 x3 : Z) :
  XorDraft.symbolicIntegrationNLFSR k x1 x2 = XorDraft.symbolicIntegrationNLFSR k x2 x1 /\
  Z.lxor (XorDraft.symbolicIntegrationNLFSR k x1 x2)
         (XorDraft.symbolicIntegrationNLFSR k x2 x3)
  = XorDraft.symbolicIntegrationNLFSR k x1 x3 /\
  FeedbackDraft.symbolicIntegrationNLFSR k x1 x2 =
  FeedbackDraft.symbolicIntegrationNLFSR k x2 x1 /\
  Z.lxor (FeedbackDraft.symbolicIntegrationNLFSR k x1 x2)
         (FeedbackDraft.symbolicIntegrationNLFSR k x2 x3)
  = FeedbackDraft.symbolicIntegrationNLFSR k x1 x3.
Proof.
  unfold XorDraft.symbolicIntegrationNLFSR, FeedbackDraft.symbolicIntegrationNLFSR.
  cbv zeta.
  assert (Hchain : forall p q r, Z.lxor (Z.lxor q p) (Z.lxor r q) = Z.lxor r p).
  { intros p q r. rewrite (Z.lxor_comm q p), Z.lxor_assoc.
    rewrite <- (Z.lxor_assoc q r q), (Z.lxor_comm q r), (Z.lxor_assoc r q q).
    rewrite Z.lxor_nilpotent, Z.lxor_0_r. apply Z.lxor_comm. }
  split; [apply Z.lxor_comm|]. split; [apply Hchain|].
  split; [apply Z.lxor_comm|apply Hchain].
Qed.

(** X11. At [x = 0] both integer antiderivatives are 0 and both polynomial
    evaluations return the constant term [e]. *)
Theorem integer_evaluations_at_zero (k : coefficients Z) :
  u32 (coef_e k) ->
  AddDraft.evaluateAntiderivative k 0 = 0 /\
  XorDraft.antiderivativeNLFSR k 0 = 0 /\
  AddDraft.evaluatePolynomial k 0 = coef_e k /\
  XorDraft.polynomialNLFSR k 0 = coef_e k.
Proof.
  intros He.
  assert (Hx0 : forall m, XorDraft.multiplyNLFSR 0 m = 0)
    by (intros m; apply shift_accumulate_zero_current).
  assert (Hm0 : forall v, XorDraft.multiplyNLFSR v 0 = 0)
    by (intros v; apply shift_accumulate_exit; lia).
  split; [|split; [|split]].
  - rewrite evaluateAntiderivative_wrap by lia.
    rewrite !Z.pow_0_l, !Z.mul_0_r by lia. reflexivity.
  - unfold XorDraft.antiderivativeNLFSR. cbv zeta.
    rewrite !Hx0, !Hm0. reflexivity.
  - rewrite evaluatePolynomial_wrap by lia. unfold polynomial_value.
    rewrite !Z.pow_0_l, !Z.mul_0_r by lia. simpl. apply wrap32_small. exact He.
  - unfold XorDraft.polynomialNLFSR. cbv zeta.
    rewrite !Hx0, !Hm0. reflexivity.
Qed.

Lemma integer_evaluations_at_zero_witness :
  AddDraft.evaluateAntiderivative fixture 0 = 0 /\
  XorDraft.antiderivativeNLFSR fixture 0 = 0 /\
  AddDraft.evaluatePolynomial fixture 0 = coef_e fixture /\
  XorDraft.polynomialNLFSR fixture 0 = coef_e fixture.
Proof.
  apply (integer_evaluations_at_zero fixture).
  unfold u32; rewrite ?modulus_eq; simpl; lia.
Defined.

(** ** The feedback shift register *)

Lemma tap_loop_fold (state : Z) (tapped : list Z) :
  Forall (fun tap => 0 <= tap < width) tapped ->
  forall (remaining i : nat) (feedback : Z),
    (i + remaining <= length tapped)%nat ->
    tap_loop state tapped remaining i feedback =
    Some (fold_left
            (fun f tap => Z.lxor f (Z.land (Z.shiftr state tap) 1))
            (firstn remaining (skipn i tapped)) feedback).
Proof.
  intros Hvalid remaining.
  induction remaining as [|remaining IH]; intros i feedback Hlen.
  - reflexivity.
  - simpl tap_loop.
    destruct (nth_error tapped i) as [tap|] eqn:Hnth.
    + assert (Hin : In tap tapped) by (eapply nth_error_In; exact Hnth).
      rewrite Forall_forall in Hvalid. pose proof (Hvalid tap Hin) as Htap.
      assert (Hguard : (0 <=? tap) && (tap <? width) = true).
      { apply andb_true_intro. split; [apply Z.leb_le|apply Z.ltb_lt]; lia. }
      rewrite Hguard. rewrite IH by lia.
      assert (Hskip : skipn i tapped = tap :: skipn (S i) tapped).
      { clear - Hnth. revert i Hnth.
        induction tapped as [|t rest IHl]; intros [|i] Hnth; simpl in *;
          try discriminate.
        - injection Hnth as ->. reflexivity.
        - apply IHl. exact Hnth. }
      rewrite Hskip. reflexivity.
    + apply nth_error_None in Hnth. lia.
Qed.

Lemma tap_parity_bit (state : Z) (tapped : list Z) :
  tap_parity state tapped = 0 \/ tap_parity state tapped = 1.
Proof.
  unfold tap_parity.
  assert (Hgen : forall f, (f = 0 \/ f = 1) ->
    let r := fold_left (fun feedback tap => Z.lxor feedback (Z.land (Z.shiftr state tap) 1))
               tapped f in r = 0 \/ r = 1).
  { induction tapped as [|t rest IH]; intros f Hf; simpl.
    - exact Hf.
    - apply IH.
      assert (Hb : Z.land (Z.shiftr state t) 1 = 0 \/ Z.land (Z.shiftr state t) 1 = 1).
      { pose proof (Z.land_ones (Z.shiftr state t) 1 ltac:(lia)) as Hmod.
        change (Z.ones 1) with 1 in Hmod. change (2 ^ 1) with 2 in Hmod.
        pose proof (Z.mod_pos_bound (Z.shiftr state t) 2 ltac:(lia)). lia. }
      destruct Hf as [-> | ->], Hb as [-> | ->]; simpl; auto. }
  apply Hgen. left. reflexivity.
Qed.

Lemma lor_top_bit (low feedback : Z) :
  0 <= low < 2 ^ 31 -> feedback = 0 \/ feedback = 1 ->
  Z.lor low (wrap32 (Z.shiftl feedback 31)) = low + 2 ^ 31 * feedback /\
  Z.lor low (wrap32 (Z.shiftl feedback 31)) = Z.lxor low (2 ^ 31 * feedback).
Proof.
  intros Hlow [-> | ->].
  - change (wrap32 (Z.shiftl 0 31)) with 0. rewrite Z.mul_0_r.
    rewrite Z.lor_0_r, Z.lxor_0_r, Z.add_0_r. split; reflexivity.
  - change (wrap32 (Z.shiftl 1 31)) with (2 ^ 31). rewrite Z.mul_1_r.
    assert (Hdisjoint : Z.land low (2 ^ 31) = 0).
    { apply Z.bits_inj'. intros n Hn.
      rewrite Z.land_spec, Z.bits_0, Z.pow2_bits_eqb by lia.
      destruct (Z.eqb_spec 31 n) as [<-|Hne]; [|apply andb_false_r].
      rewrite andb_true_r.
      destruct (Z.eq_dec low 0) as [->|Hnz]; [apply Z.bits_0|].
      apply Z.bits_above_log2; [lia|].
      apply Z.log2_lt_pow2; lia. }
    rewrite <- (Z.lxor_lor _ _ Hdisjoint).
    rewrite (Z.add_nocarry_lxor _ _ Hdisjoint). split; reflexivity.
Qed.

Lemma shiftr_one_range (state : Z) : u32 state -> 0 <= Z.shiftr state 1 < 2 ^ 31.
Proof.
  unfold u32. rewrite modulus_eq. intros Hs.
  rewrite Z.shiftr_div_pow2 by lia. change (2 ^ 1) with 2. change (2 ^ 31) with 2147483648.
  pose proof (Z.div_mod state 2 ltac:(lia)).
  pose proof (Z.mod_pos_bound state 2 ltac:(lia)). lia.
Qed.

Lemma NLFSR_value (state : Z) (tapped : list Z) (num_taps : Z) :
  valid_taps tapped num_taps ->
  NLFSR state tapped num_taps =
  Some (Z.lor (Z.shiftr state 1)
          (wrap32 (Z.shiftl (tap_parity state (firstn (Z.to_nat num_taps) tapped)) 31))).
Proof.
  intros [Hn Hvalid]. unfold NLFSR.
  rewrite (tap_loop_fold state tapped Hvalid) by lia.
  reflexivity.
Qed.

(** X12. With readable taps below 32 the register step is defined on every
    32-bit state: the state moves one place to the right, the XOR of the
    tapped bits enters at bit 31, and the result is again a 32-bit value. *)
Theorem NLFSR_shifts_in_parity (state : Z) (tapped : list Z) (num_taps : Z) :
  u32 state -> valid_taps tapped num_taps ->
  let parity := tap_parity state (firstn (Z.to_nat num_taps) tapped) in
  (parity = 0 \/ parity = 1) /\
  NLFSR state tapped num_taps = Some (state / 2 + 2 ^ 31 * parity) /\
  u32 (state / 2 + 2 ^ 31 * parity).
Proof.
  intros Hs Hvalid parity.
  pose proof (tap_parity_bit state (firstn (Z.to_nat num_taps) tapped)) as Hbit.
  fold parity in Hbit.
  pose proof (shiftr_one_range state Hs) as Hlow.
  destruct (lor_top_bit _ _ Hlow Hbit) as [Hadd _].
  split; [exact Hbit|].
  rewrite (NLFSR_value state tapped num_taps Hvalid). fold parity.
  rewrite Hadd. rewrite Z.shiftr_div_pow2 in * by lia. change (2 ^ 1) with 2 in *.
  split; [reflexivity|].
  unfold u32. rewrite modulus_eq. change (2 ^ 31) with 2147483648 in *.
  destruct Hbit as [-> | ->]; lia.
Qed.

Lemma NLFSR_shifts_in_parity_witness :
  let parity := tap_parity 2147483649 (firstn (Z.to_nat 4) taps) in
  (parity = 0 \/ parity = 1) /\
  NLFSR 2147483649 taps 4 = Some (2147483649 / 2 + 2 ^ 31 * parity) /\
  u32 (2147483649 / 2 + 2 ^ 31 * parity).
Proof.
  apply (NLFSR_shifts_in_parity 2147483649 taps 4).
  - unfold u32; rewrite ?modulus_eq; lia.
  - unfold valid_taps, taps, width. split; [simpl; lia|].
    repeat constructor; lia.
Defined.

Lemma tap_parity_lxor (s1 s2 : Z) (tapped : list Z) :
  tap_parity (Z.lxor s1 s2) tapped = Z.lxor (tap_parity s1 tapped) (tap_parity s2 tapped).
Proof.
  unfold tap_parity.
  assert (Hgen : forall f1 f2,
    fold_left (fun f tap => Z.lxor f (Z.land (Z.shiftr (Z.lxor s1 s2) tap) 1))
      tapped (Z.lxor f1 f2) =
    Z.lxor (fold_left (fun f tap => Z.lxor f (Z.land (Z.shiftr s1 tap) 1)) tapped f1)
           (fold_left (fun f tap => Z.lxor f (Z.land (Z.shiftr s2 tap) 1)) tapped f2)).
  { induction tapped as [|t rest IH]; intros f1 f2; simpl; [reflexivity|].
    rewrite <- IH. f_equal.
    rewrite Z.shiftr_lxor.
    assert (Hland : forall p q, Z.land (Z.lxor p q) 1 = Z.lxor (Z.land p 1) (Z.land q 1)).
    { intros p q. apply Z.bits_inj'. intros n Hn.
      rewrite !Z.lxor_spec, !Z.land_spec, !Z.lxor_spec.
      destruct (Z.testbit p n), (Z.testbit q n), (Z.testbit 1 n); reflexivity. }
    rewrite Hland. apply lxor_swap_middle. }
  apply (Hgen 0 0).
Qed.

(** X13. The register step is linear over XOR: stepping [s1 ^ s2] gives the
    XOR of stepping [s1] and stepping [s2]; in particular the all-zero state
    steps to itself. *)
Theorem NLFSR_linear (s1 s2 : Z) (tapped : list Z) (num_taps : Z) :
  u32 s1 -> u32 s2 -> valid_taps tapped num_taps ->
  exists r1 r2 : Z,
    NLFSR s1 tapped num_taps = Some r1 /\
    NLFSR s2 tapped num_taps = Some r2 /\
    NLFSR (Z.lxor s1 s2) tapped num_taps = Some (Z.lxor r1 r2) /\
    NLFSR 0 tapped num_taps = Some 0.
Proof.
  intros H1 H2 Hvalid.
  set (tp := firstn (Z.to_nat num_taps) tapped).
  pose proof (tap_parity_bit s1 tp) as Hb1.
  pose proof (tap_parity_bit s2 tp) as Hb2.
  pose proof (tap_parity_bit (Z.lxor s1 s2) tp) as Hb12.
  pose proof (u32_lxor s1 s2 H1 H2) as H12.
  destruct (lor_top_bit _ _ (shiftr_one_range s1 H1) Hb1) as [_ Hx1].
  destruct (lor_top_bit _ _ (shiftr_one_range s2 H2) Hb2) as [_ Hx2].
  destruct (lor_top_bit _ _ (shiftr_one_range _ H12) Hb12) as [_ Hx12].
  exists (Z.lxor (Z.shiftr s1 1) (2 ^ 31 * tap_parity s1 tp)),
         (Z.lxor (Z.shiftr s2 1) (2 ^ 31 * tap_parity s2 tp)).
  rewrite !(NLFSR_value _ tapped num_taps Hvalid). fold tp.
  rewrite Hx1, Hx2, Hx12.
  split; [reflexivity|]. split; [reflexivity|]. split.
  - f_equal. rewrite tap_parity_lxor, Z.shiftr_lxor.
    rewrite lxor_swap_middle. f_equal.
    destruct Hb1 as [-> | ->], Hb2 as [-> | ->]; reflexivity.
  - assert (Hp0 : tap_parity 0 tp = 0).
    { replace 0 with (Z.lxor s1 s1) at 1 by apply Z.lxor_nilpotent.
      rewrite tap_parity_lxor. apply Z.lxor_nilpotent. }
    rewrite Hp0. reflexivity.
Qed.

Lemma NLFSR_linear_witness :
  exists r1 r2 : Z,
    NLFSR 305419896 taps 4 = Some r1 /\
    NLFSR 2271560481 taps 4 = Some r2 /\
    NLFSR (Z.lxor 305419896 2271560481) taps 4 = Some (Z.lxor r1 r2) /\
    NLFSR 0 taps 4 = Some 0.
Proof.
  apply (NLFSR_linear 305419896 2271560481 taps 4).
  - unfold u32; rewrite ?modulus_eq; lia.
  - unfold u32; rewrite ?modulus_eq; lia.
  - unfold valid_taps, taps, width. split; [simpl; lia|].
    repeat constructor; lia.
Defined.

(** ** The multiplier of the "emulation" draft *)

Lemma feedback_loop_step (power i result feedback : Z) :
  i < power ->
  FeedbackDraft.feedback_loop power i result feedback =
  FeedbackDraft.feedback_loop power (i + 1)
    (Z.lxor result feedback) (wrap32 (Z.shiftl feedback 1)).
Proof.
  intros Hi. rewrite FeedbackDraft.feedback_loop_equation_1.
  destruct (Z_lt_dec i power) as [Hlt|Hge]; [reflexivity|contradiction].
Qed.

Lemma feedback_loop_exit (power i result feedback : Z) :
  power <= i -> FeedbackDraft.feedback_loop power i result feedback = result.
Proof.
  intros Hi. rewrite FeedbackDraft.feedback_loop_equation_1.
  destruct (Z_lt_dec i power) as [Hlt|Hge]; [lia|reflexivity].
Qed.

Lemma feedback_loop_as_shift_accumulate (n : nat) :
  forall i result feedback,
    FeedbackDraft.feedback_loop (i + Z.of_nat n) i result feedback =
    shift_accumulate xor_accumulate result feedback (2 ^ Z.of_nat n - 1).
Proof.
  induction n as [|n IH]; intros i r f.
  - rewrite feedback_loop_exit by lia.
    rewrite shift_accumulate_exit by (simpl; lia). reflexivity.
  - assert (Hpos : 0 < 2 ^ Z.of_nat n) by (apply Z.pow_pos_nonneg; lia).
    rewrite feedback_loop_step by lia.
    replace (i + Z.of_nat (S n)) with ((i + 1) + Z.of_nat n) by lia.
    rewrite IH.
    rewrite Nat2Z.inj_succ, Z.pow_succ_r by lia.
    rewrite (shift_accumulate_step _ _ _ (2 * 2 ^ Z.of_nat n - 1)) by lia.
    destruct (low_bit_cases (2 * 2 ^ Z.of_nat n - 1) ltac:(lia)) as [[Hbit Heq]|[Hbit Heq]];
      [lia|].
    rewrite Hbit. simpl negb. cbv iota.
    replace (Z.shiftr (2 * 2 ^ Z.of_nat n - 1) 1) with (2 ^ Z.of_nat n - 1) by lia.
    reflexivity.
Qed.

(** X14. For [power] up to 32 the repeated-shift multiplier returns what the
    XOR multiplier returns for the multiplier [2^power - 1] (all of the low
    [power] bits set): it XORs [power] shifted copies of [value] and does not
    multiply by [power]; [power = 0] gives 0 and [power = 1] gives [value]. *)
Theorem feedback_multiplyNLFSR_is_all_ones_product (value power : Z) :
  0 <= power <= width ->
  FeedbackDraft.multiplyNLFSR value power = XorDraft.multiplyNLFSR value (2 ^ power - 1) /\
  FeedbackDraft.multiplyNLFSR value 0 = 0 /\
  FeedbackDraft.multiplyNLFSR value 1 = value.
Proof.
  intros Hp. unfold FeedbackDraft.multiplyNLFSR, XorDraft.multiplyNLFSR.
  split; [|split].
  - rewrite <- (Z2Nat.id power) at 1 2 by lia.
    apply (feedback_loop_as_shift_accumulate (Z.to_nat power) 0 0 value).
  - apply feedback_loop_exit. lia.
  - rewrite feedback_loop_step by lia. rewrite feedback_loop_exit by lia.
    apply Z.lxor_0_l.
Qed.

Lemma feedback_multiplyNLFSR_is_all_ones_product_witness :
  FeedbackDraft.multiplyNLFSR 3 4 = XorDraft.multiplyNLFSR 3 (2 ^ 4 - 1) /\
  FeedbackDraft.multiplyNLFSR 3 0 = 0 /\
  FeedbackDraft.multiplyNLFSR 3 1 = 3.
Proof.
  apply (feedback_multiplyNLFSR_is_all_ones_product 3 4). unfold width. lia.
Defined.

Lemma feedback_loop_unroll (power : Z) (n : nat) :
  forall i result feedback,
    i + Z.of_nat n <= power ->
    FeedbackDraft.feedback_loop power i result feedback =
    FeedbackDraft.feedback_loop power (i + Z.of_nat n)
      (fst (Nat.iter n feedback_body (result, feedback)))
      (snd (Nat.iter n feedback_body (result, feedback))).
Proof.
  induction n as [|n IH]; intros i r f Hle.
  - simpl. rewrite Z.add_0_r. reflexivity.
  - rewrite feedback_loop_step by lia.
    rewrite IH by lia. rewrite Nat.iter_succ_r.
    replace (i + 1 + Z.of_nat n) with (i + Z.of_nat (S n)) by lia.
    reflexivity.
Qed.

Lemma feedback_body_shifts (n : nat) (result feedback : Z) :
  u32 feedback ->
  snd (Nat.iter n feedback_body (result, feedback)) = wrap32 (feedback * 2 ^ Z.of_nat n).
Proof.
  intros Hf. induction n as [|n IH].
  - simpl. rewrite Z.mul_1_r. symmetry. apply wrap32_small. exact Hf.
  - rewrite Nat.iter_succ. unfold feedback_body at 1. cbn [snd]. rewrite IH.
    rewrite Z.shiftl_mul_pow2 by lia. change (2 ^ 1) with 2.
    rewrite wrap32_mul_l. f_equal.
    rewrite Nat2Z.inj_succ, Z.pow_succ_r by lia. ring.
Qed.

Lemma feedback_loop_zero_feedback (power : Z) (n : nat) :
  forall i result,
    Z.to_nat (power - i) = n ->
    FeedbackDraft.feedback_loop power i result 0 = result.
Proof.
  induction n as [|n IH]; intros i r Hn.
  - apply feedback_loop_exit. lia.
  - rewrite feedback_loop_step by lia.
    change (wrap32 (Z.shiftl 0 1)) with 0. rewrite Z.lxor_0_r.
    apply IH. lia.
Qed.

(** X15. The repeated-shift multiplier saturates: after 32 shifts the feedback
    register is empty, so every [power >= 32] returns what [power = 32]
    returns. *)
Theorem feedback_multiplyNLFSR_saturates (value power : Z) :
  u32 value -> width <= power ->
  FeedbackDraft.multiplyNLFSR value power = FeedbackDraft.multiplyNLFSR value width.
Proof.
  intros Hv Hp. unfold FeedbackDraft.multiplyNLFSR, width in *.
  rewrite (feedback_loop_unroll power 32 0 0 value) by (simpl; lia).
  rewrite (feedback_loop_unroll 32 32 0 0 value) by (simpl; lia).
  rewrite (feedback_body_shifts 32 0 value Hv).
  assert (Hzero : wrap32 (value * 2 ^ Z.of_nat 32) = 0).
  { unfold wrap32, modulus, width. change (Z.of_nat 32) with 32.
    apply Z.mod_mul. discriminate. }
  rewrite Hzero.
  rewrite (feedback_loop_zero_feedback power (Z.to_nat (power - (0 + Z.of_nat 32))))
    by reflexivity.
  rewrite feedback_loop_exit by (simpl; lia). reflexivity.
Qed.

Lemma feedback_multiplyNLFSR_saturates_witness :
  FeedbackDraft.multiplyNLFSR 2863311531 40 = FeedbackDraft.multiplyNLFSR 2863311531 width.
Proof.
  apply (feedback_multiplyNLFSR_saturates 2863311531 40).
  - unfold u32; rewrite ?modulus_eq; lia.
  - unfold width. lia.
Defined.

(** ** Integer and exact evaluations side by side *)

Lemma exact_of_Z_add (x y : Z) : exact_of_Z (x + y) = (exact_of_Z x + exact_of_Z y)%Qc.
Proof.
  unfold exact_of_Z, Qcplus. apply Qc_is_canon. unfold Q2Qc. cbn [this].
  rewrite !Qred_correct, inject_Z_plus. reflexivity.
Qed.

Lemma exact_of_Z_mul (x y : Z) : exact_of_Z (x * y) = (exact_of_Z x * exact_of_Z y)%Qc.
Proof.
  unfold exact_of_Z, Qcmult. apply Qc_is_canon. unfold Q2Qc. cbn [this].
  rewrite !Qred_correct, inject_Z_mult. reflexivity.
Qed.

Lemma exact_of_Z_pow (x : Z) (n : nat) :
  exact_of_Z (x ^ Z.of_nat n) = (exact_of_Z x ^ n)%Qc.
Proof.
  induction n as [|n IH].
  - reflexivity.
  - rewrite Nat2Z.inj_succ, Z.pow_succ_r by lia.
    rewrite exact_of_Z_mul, IH. reflexivity.
Qed.

Lemma exact_of_Z_nonzero (z : Z) : z <> 0 -> exact_of_Z z <> 0%Qc.
Proof.
  intros Hz Heq. apply Hz.
  assert (Hq : (this (exact_of_Z z) == this 0%Qc)%Q) by (rewrite Heq; reflexivity).
  unfold exact_of_Z, Q2Qc in Hq. cbn [this] in Hq. rewrite !Qred_correct in Hq.
  unfold Qeq in Hq. simpl in Hq. lia.
Qed.

Lemma exact_of_Z_div (z divisor : Z) :
  divisor <> 0 -> (divisor | z) ->
  exact_of_Z (z / divisor) = (exact_of_Z z / exact_of_Z divisor)%Qc.
Proof.
  intros Hd [q ->]. rewrite Z.div_mul by exact Hd.
  rewrite exact_of_Z_mul. field. apply exact_of_Z_nonzero. exact Hd.
Qed.

Lemma polynomial_of_integers (k : coefficients Z) (x : Z) :
  Trapezoid.polynomial (exact_coefficients k) (exact_of_Z x) =
  exact_of_Z (polynomial_value k x).
Proof.
  unfold polynomial_value.
  rewrite !exact_of_Z_add, !exact_of_Z_mul.
  change 4 with (Z.of_nat 4). change 3 with (Z.of_nat 3). change 2 with (Z.of_nat 2).
  rewrite !exact_of_Z_pow. reflexivity.
Qed.

(** X16. Without overflow the arithmetic integer [evaluatePolynomial] and the
    floating-point [polynomial], read in exact arithmetic, agree on integer
    coefficients and abscissas. *)
Theorem evaluatePolynomial_agrees_with_polynomial (k : coefficients Z) (x : Z) :
  u32_coefficients k -> u32 x -> polynomial_value k x < modulus ->
  exact_of_Z (AddDraft.evaluatePolynomial k x) =
  Trapezoid.polynomial (exact_coefficients k) (exact_of_Z x) /\
  exact_of_Z (AddDraft.evaluatePolynomial k x) =
  RingDraft.polynomial (exact_coefficients k) (exact_of_Z x).
Proof.
  intros (Ha & Hb & Hc & Hd & He) Hx Hfit.
  assert (Heval : AddDraft.evaluatePolynomial k x = polynomial_value k x).
  { rewrite evaluatePolynomial_wrap by apply Hx.
    apply wrap32_small. unfold u32 in *. split; [|exact Hfit].
    unfold polynomial_value.
    assert (0 <= x ^ 4) by (apply Z.pow_nonneg; lia).
    assert (0 <= x ^ 3) by (apply Z.pow_nonneg; lia).
    assert (0 <= x ^ 2) by (apply Z.pow_nonneg; lia).
    nia. }
  rewrite Heval.
  split; symmetry; apply polynomial_of_integers.
Qed.

Lemma evaluatePolynomial_agrees_with_polynomial_witness :
  exact_of_Z (AddDraft.evaluatePolynomial fixture 10) =
  Trapezoid.polynomial (exact_coefficients fixture) (exact_of_Z 10) /\
  exact_of_Z (AddDraft.evaluatePolynomial fixture 10) =
  RingDraft.polynomial (exact_coefficients fixture) (exact_of_Z 10).
Proof.
  apply (evaluatePolynomial_agrees_with_polynomial fixture 10);
    unfold u32_coefficients, polynomial_value, u32;
    rewrite ?modulus_eq; simpl; lia.
Defined.

(** X17. When the divisors 5, 4, 3, 2 divide the coefficients a, b, c, d and
    nothing overflows, the arithmetic integer [evaluateAntiderivative] and the
    symbolic [polynomialAntiderivative], read in exact arithmetic, agree. *)
Theorem evaluateAntiderivative_agrees_with_symbolic (k : coefficients Z) (x : Z) :
  u32_coefficients k -> u32 x -> antiderivative_fits k x ->
  (5 | coef_a k) -> (4 | coef_b k) -> (3 | coef_c k) -> (2 | coef_d k) ->
  exact_of_Z (AddDraft.evaluateAntiderivative k x) =
  Symbolic.polynomialAntiderivative (exact_coefficients k) (exact_of_Z x).
Proof.
  intros (Ha & Hb & Hc & Hd & He) Hx (Fa & Fb & Fc & Fd & Fsum) D5 D4 D3 D2.
  unfold u32 in *. unfold antiderivative_value in Fsum.
  assert (P5 : 0 <= x ^ 5) by (apply Z.pow_nonneg; lia).
  assert (P4 : 0 <= x ^ 4) by (apply Z.pow_nonneg; lia).
  assert (P3 : 0 <= x ^ 3) by (apply Z.pow_nonneg; lia).
  assert (P2 : 0 <= x ^ 2) by (apply Z.pow_nonneg; lia).
  assert (Heval : AddDraft.evaluateAntiderivative k x = antiderivative_value k x).
  { rewrite evaluateAntiderivative_wrap by lia.
    rewrite !(wrap32_small (_ * x ^ _)) by (unfold u32; nia).
    apply wrap32_small. unfold u32, antiderivative_value. split; [|exact Fsum].
    assert (0 <= coef_a k * x ^ 5 / 5) by (apply Z.div_pos; nia).
    assert (0 <= coef_b k * x ^ 4 / 4) by (apply Z.div_pos; nia).
    assert (0 <= coef_c k * x ^ 3 / 3) by (apply Z.div_pos; nia).
    assert (0 <= coef_d k * x ^ 2 / 2) by (apply Z.div_pos; nia).
    nia. }
  rewrite Heval. unfold antiderivative_value.
  rewrite !exact_of_Z_add.
  rewrite (exact_of_Z_div (coef_a k * x ^ 5) 5)
    by (try discriminate; apply Z.divide_mul_l; exact D5).
  rewrite (exact_of_Z_div (coef_b k * x ^ 4) 4)
    by (try discriminate; apply Z.divide_mul_l; exact D4).
  rewrite (exact_of_Z_div (coef_c k * x ^ 3) 3)
    by (try discriminate; apply Z.divide_mul_l; exact D3).
  rewrite (exact_of_Z_div (coef_d k * x ^ 2) 2)
    by (try discriminate; apply Z.divide_mul_l; exact D2).
  rewrite !exact_of_Z_mul.
  change 5 with (Z.of_nat 5) at 1. change 4 with (Z.of_nat 4) at 1.
  change 3 with (Z.of_nat 3) at 1. change 2 with (Z.of_nat 2) at 1.
  rewrite !exact_of_Z_pow.
  rewrite polynomialAntiderivative_exact. cbn [exact_coefficients coef_a coef_b coef_c coef_d coef_e].
  change (dconst 5) with (exact_of_Z 5). change (dconst 4) with (exact_of_Z 4).
  change (dconst 3) with (exact_of_Z 3). change (dconst 2) with (exact_of_Z 2).
  field.
  repeat split; apply exact_of_Z_nonzero; discriminate.
Qed.

Lemma evaluateAntiderivative_agrees_with_symbolic_witness :
  exact_of_Z (AddDraft.evaluateAntiderivative (Coefficients 5 8 3 6 7) 9) =
  Symbolic.polynomialAntiderivative (exact_coefficients (Coefficients 5 8 3 6 7))
    (exact_of_Z 9).
Proof.
  apply (evaluateAntiderivative_agrees_with_symbolic (Coefficients 5 8 3 6 7) 9);
    try (unfold u32_coefficients, antiderivative_fits, antiderivative_value, u32;
         rewrite ?modulus_eq; simpl; lia).
  - exists 1; reflexivity.
  - exists 2; reflexivity.
  - exists 1; reflexivity.
  - exists 3; reflexivity.
Defined.

(** ** Integration over an interval in the natural order *)

Lemma evaluateAntiderivative_value (k : coefficients Z) (x : Z) :
  u32_coefficients k -> 0 <= x -> antiderivative_fits k x ->
  AddDraft.evaluateAntiderivative k x = antiderivative_value k x.
Proof.
  intros (Ha & Hb & Hc & Hd & He) Hx (Fa & Fb & Fc & Fd & Fsum).
  unfold u32 in *. unfold antiderivative_value in *.
  rewrite evaluateAntiderivative_wrap by lia.
  assert (P5 : 0 <= x ^ 5) by (apply Z.pow_nonneg; lia).
  assert (P4 : 0 <= x ^ 4) by (apply Z.pow_nonneg; lia).
  assert (P3 : 0 <= x ^ 3) by (apply Z.pow_nonneg; lia).
  assert (P2 : 0 <= x ^ 2) by (apply Z.pow_nonneg; lia).
  rewrite !(wrap32_small (_ * x ^ _)) by (unfold u32; nia).
  apply wrap32_small. unfold u32. split; [|exact Fsum].
  assert (0 <= coef_a k * x ^ 5 / 5) by (apply Z.div_pos; nia).
  assert (0 <= coef_b k * x ^ 4 / 4) by (apply Z.div_pos; nia).
  assert (0 <= coef_c k * x ^ 3 / 3) by (apply Z.div_pos; nia).
  assert (0 <= coef_d k * x ^ 2 / 2) by (apply Z.div_pos; nia).
  nia.
Qed.

Lemma scaled_power_mono (coefficient x y n divisor : Z) :
  0 <= coefficient -> 0 <= x <= y -> 0 < divisor ->
  0 <= coefficient * x ^ n / divisor <= coefficient * y ^ n / divisor /\
  coefficient * x ^ n <= coefficient * y ^ n.
Proof.
  intros Hc Hxy Hd.
  assert (Hpow : x ^ n <= y ^ n) by (apply Z.pow_le_mono_l; exact Hxy).
  assert (Hx : 0 <= x ^ n) by (apply Z.pow_nonneg; lia).
  assert (Hmul : coefficient * x ^ n <= coefficient * y ^ n)
    by (apply Z.mul_le_mono_nonneg_l; lia).
  split; [|exact Hmul]. split.
  - apply Z.div_pos; nia.
  - apply Z.div_le_mono; lia.
Qed.

(** X20. For bounds in the natural order, [0 <= x_start <= x_end], and no
    overflow at [x_end], the arithmetic [integratePolynomial] does not wrap:
    it returns the difference of the exact (floor-divided) antiderivative
    values, which is not negative. *)
Theorem integratePolynomial_natural_order (k : coefficients Z) (x_start x_end : Z) :
  u32_coefficients k -> 0 <= x_start <= x_end -> antiderivative_fits k x_end ->
  AddDraft.integratePolynomial k x_start x_end =
  antiderivative_value k x_end - antiderivative_value k x_start /\
  0 <= AddDraft.integratePolynomial k x_start x_end.
Proof.
  intros Hk Hx Hfit.
  assert (Hxs : 0 <= x_start) by lia.
  assert (Hxe : 0 <= x_end) by lia.
  pose proof Hk as (Ha & Hb & Hc & Hd & He). unfold u32 in Ha, Hb, Hc, Hd, He.
  destruct (scaled_power_mono (coef_a k) x_start x_end 5 5) as [M5 L5]; try lia.
  destruct (scaled_power_mono (coef_b k) x_start x_end 4 4) as [M4 L4]; try lia.
  destruct (scaled_power_mono (coef_c k) x_start x_end 3 3) as [M3 L3]; try lia.
  destruct (scaled_power_mono (coef_d k) x_start x_end 2 2) as [M2 L2]; try lia.
  assert (M1 : 0 <= coef_e k * x_start <= coef_e k * x_end).
  { split; [apply Z.mul_nonneg_nonneg; lia|apply Z.mul_le_mono_nonneg_l; lia]. }
  pose proof Hfit as (Fa & Fb & Fc & Fd & Fsum).
  assert (Hboth : 0 <= antiderivative_value k x_start <= antiderivative_value k x_end
                  /\ antiderivative_fits k x_start).
  { unfold antiderivative_fits, antiderivative_value in *.
    clear Ha Hb Hc Hd He Hk Hfit Hx Hxs Hxe.
    set (p5s := coef_a k * x_start ^ 5) in *. set (p5e := coef_a k * x_end ^ 5) in *.
    set (p4s := coef_b k * x_start ^ 4) in *. set (p4e := coef_b k * x_end ^ 4) in *.
    set (p3s := coef_c k * x_start ^ 3) in *. set (p3e := coef_c k * x_end ^ 3) in *.
    set (p2s := coef_d k * x_start ^ 2) in *. set (p2e := coef_d k * x_end ^ 2) in *.
    set (p1s := coef_e k * x_start) in *. set (p1e := coef_e k * x_end) in *.
    set (q5s := p5s / 5) in *. set (q5e := p5e / 5) in *.
    set (q4s := p4s / 4) in *. set (q4e := p4e / 4) in *.
    set (q3s := p3s / 3) in *. set (q3e := p3e / 3) in *.
    set (q2s := p2s / 2) in *. set (q2e := p2e / 2) in *.
    clearbody q5s q5e q4s q4e q3s q3e q2s q2e.
    clearbody p5s p5e p4s p4e p3s p3e p2s p2e p1s p1e.
    repeat split; lia. }
  destruct Hboth as [Hmono Hfit_start].
  unfold AddDraft.integratePolynomial. cbv zeta.
  rewrite (evaluateAntiderivative_value k x_start Hk Hxs Hfit_start).
  rewrite (evaluateAntiderivative_value k x_end Hk Hxe Hfit).
  clear - Hmono Fsum.
  set (Fs := antiderivative_value k x_start) in *.
  set (Fe := antiderivative_value k x_end) in *.
  clearbody Fs Fe.
  rewrite wrap32_small by (unfold u32; lia).
  split; [reflexivity|lia].
Qed.

Lemma integratePolynomial_natural_order_witness :
  AddDraft.integratePolynomial fixture 3 10 =
  antiderivative_value fixture 10 - antiderivative_value fixture 3 /\
  0 <= AddDraft.integratePolynomial fixture 3 10.
Proof.
  apply (integratePolynomial_natural_order fixture 3 10);
    unfold u32_coefficients, antiderivative_fits, antiderivative_value, u32;
    rewrite ?modulus_eq; simpl; lia.
Defined.

(** ** The trapezoidal sketch in rounded arithmetic *)

Lemma power_of_two_mod_five (n : nat) :
  0 < (2 ^ Z.of_nat n) mod 5.
Proof.
  induction n as [|n IH].
  - reflexivity.
  - rewrite Nat2Z.inj_succ, Z.pow_succ_r by lia.
    set (p := 2 ^ Z.of_nat n) in *. clearbody p.
    Z.div_mod_to_equations. lia.
Qed.

(** The value of the trapezoidal rule on the fixture, 26250.03883333, is not
    of the form [m * 2^e]: no binary64 value stands for it. *)
Lemma rule_value_not_binary64 (f : spec_float) (q : Q) :
  spec_float_value f = Some q -> ~ (q == 2625003883333 # 100000000)%Q.
Proof.
  destruct f as [s|s| |s m e]; simpl; intros Hq; try discriminate;
    injection Hq as <-; unfold Qeq.
  - simpl. discriminate.
  - unfold dyadic. set (M := if s then Z.neg m else Z.pos m). clearbody M.
    destruct (0 <=? e) eqn:He; cbn [Qnum Qden inject_Z].
    + set (P := M * 2 ^ e). clearbody P. lia.
    + apply Z.leb_gt in He.
      rewrite Pos2Z.inj_pow.
      rewrite <- (positive_nat_Z (Z.to_pos (- e))).
      pose proof (power_of_two_mod_five (Pos.to_nat (Z.to_pos (- e)))) as Hmod.
      change (Z.pos 2) with 2.
      set (P := 2 ^ Z.of_nat (Pos.to_nat (Z.to_pos (- e)))) in *. clearbody P.
      Z.div_mod_to_equations. lia.
Qed.

(** C7, as the code has it.  In every arithmetic [trapezoidalIntegration]
    returns [((0.0 + f(x_start)/2 + f(x_end)/2 + f(x_start + 1*h) + ... +
    f(x_start + (n-1)*h)) * h] with [h = (x_end - x_start)/n], each operation
    being the operation of that arithmetic, applied in this order; in exact
    arithmetic this is [h * (f(x_start)/2 + f(x_end)/2 + sum of
    f(x_start + i*h), i = 1..n-1)], for every [n >= 1]. *)
Theorem trapezoidalIntegration_in_order
  {D : Type} {arith : DoubleArith D} (k : coefficients D) (x_start x_end : D)
  (kq : coefficients Qc) (q_start q_end : Qc) (n : Z) :
  1 <= n ->
  Trapezoid.trapezoidalIntegration k x_start x_end n =
  trapezoidal_rule_in_order k x_start x_end n /\
  Trapezoid.trapezoidalIntegration kq q_start q_end n =
  trapezoidal_rule kq q_start q_end n.
Proof.
  intros Hn. split.
  - unfold Trapezoid.trapezoidalIntegration, trapezoidal_rule_in_order. cbv zeta.
    rewrite (sum_middle_terms_fold k x_start _ n (Z.to_nat (n - 1))) by reflexivity.
    reflexivity.
  - apply trapezoidalIntegration_exact_rule.
Qed.

Lemma trapezoidalIntegration_in_order_witness :
  Trapezoid.trapezoidalIntegration binary64_fixture (dconst 0) (dconst 10) 4 =
  trapezoidal_rule_in_order binary64_fixture (dconst 0) (dconst 10) 4 /\
  Trapezoid.trapezoidalIntegration exact_fixture (dconst 0) (dconst 10) 4 =
  trapezoidal_rule exact_fixture (dconst 0) (dconst 10) 4.
Proof.
  apply (trapezoidalIntegration_in_order
           binary64_fixture (dconst 0) (dconst 10) exact_fixture (dconst 0) (dconst 10) 4).
  lia.
Defined.

(** C7 fails on the sketch read as an exact equation: on its own input
    (a=1, b=2, c=3, d=4, e=5 over [0, 10], 1000 intervals) the binary64 result
    stands for 7215555731704472 / 2^38, the trapezoidal rule gives
    26250.03883333, and the two differ; indeed no binary64 value at all stands
    for 26250.03883333. *)
Lemma trapezoidalIntegration_is_rounded :
  binary64_value
    (Trapezoid.trapezoidalIntegration binary64_fixture (dconst 0) (dconst 10)
       num_intervals_default)
  = Some (7215555731704472 # 274877906944) /\
  trapezoidal_rule exact_fixture (dconst 0) (dconst 10) num_intervals_default
  = Q2Qc (2625003883333 # 100000000) /\
  ~ (7215555731704472 # 274877906944 == 2625003883333 # 100000000)%Q /\
  (forall (v : float) (q : Q),
      binary64_value v = Some q -> ~ (q == 2625003883333 # 100000000)%Q).
Proof.
  split; [vm_compute; reflexivity|]. split.
  - rewrite <- trapezoidalIntegration_exact_rule. apply trapezoidalIntegration_fixture.
  - split.
    + unfold Qeq. simpl. discriminate.
    + intros v q. unfold binary64_value. apply rule_value_not_binary64.
Qed.
